(** * stream-recap: the recap generation engine of [server-recap.js]

    A shallow embedding of the recap coordinator ([generateRecapVideo]), the
    placeholder media source ([createTestClipVideo]), the clip registry
    ([createClip] and the routes that call it) and the hourly retention sweep,
    followed by the properties of the specification that they decide.

    Modelling conventions.
    - JavaScript runs each piece of synchronous code to completion; an [async]
      function is interrupted only at an [await] or while a promise it
      returned is pending.  A request is therefore a [task]: the continuation
      left at such a suspension point.  The server is a [system]: the shared
      store plus the pool of tasks, advanced by one [event] at a time.
    - Numbers are the integers of [Z]: millisecond clock readings, minutes,
      sizes and exit codes are all integers far below 2^53, where JavaScript's
      arithmetic is exact.  [NaN] appears only as the time value of an
      invalid [Date].
    - [minutesLate] is the integer [parseInt] returns; the [NaN] it returns
      on a malformed parameter is left out.
    - Each of the three storage directories is a finite map from the file
      name inside it to what the code can observe of the file; file names
      stand for the paths [path.join] builds from them.
    - The external processes are the environment: an event tells that one
      has closed and what it left behind.  Spawning and writing the list
      file are taken to succeed. *)

From Stdlib Require Import ZArith Ascii List Sorting.Sorted Sorting.Permutation.
From stdpp Require Import base gmap sets list sorting strings pretty.

Local Open Scope Z_scope.

(* ===================================================================== *)
(** ** Values *)
(* ===================================================================== *)

(** What a clip's [startTime] / [endTime] holds.  [POST /clip] stores
    [new Date(x)], which is the invalid date when [x] is missing or
    malformed; the category-change webhook stores [lastSegmentStart] and
    [Date.now()], which are plain numbers. *)
Inductive jsTime :=
| DateObj (ms : option Z)
| NumberMs (ms : Z).

Record clip := Clip {
  clip_id : string;
  category : string;
  title : string;
  startTime : jsTime;
  endTime : jsTime;
  createdAt : Z;
  processed : bool
}.

(** [streams.get(channelId)] *)
Record stream := Stream {
  stream_startTime : Z;
  currentCategory : string;
  lastSegmentStart : Z;
  stream_clips : list clip;
  stream_endTime : option Z
}.

(** What [fs.statSync] shows of an entry of [VIDEOS_DIR]. *)
Record file := File {
  st_size : Z;
  mtimeMs : Z;
  isDirectory : bool
}.

(** One entry of the concat list: a [file '<path>'] line and a
    [duration <seconds>] line. *)
Record listEntry := ListEntry {
  mediaPath : string;
  declaredDuration : Z
}.

(** External processes started with [spawn('ffmpeg', ...)]. *)
Inductive proc :=
| FfmpegConcat (listFile videoPath : string)
| FfmpegLavfi (outputPath : string) (durationSeconds : Z).

(** The object a recap request resolves to. *)
Inductive result :=
| Cached (id url : string)                      (* {id, url, cached: true} *)
| Awaited (id url : string)                     (* {id, url, cached: false} *)
| Generated (id url : string) (size duration : Z) (* {id, url, size, duration} *)
| Error (message : string).                     (* {error} *)

(** The module-level state together with the three directories and the
    trace of processes spawned so far. *)
Record world := World {
  streams : gmap string stream;
  clips : gmap string (list clip);
  generatingVideos : gset string;
  videosDir : gmap string file;
  clipsDir : gmap string Z;        (* file name -> length of the media, in s *)
  tempDir : gmap string string;    (* file name -> content *)
  spawned : list proc
}.

(** A request that has been received: where its promise stands. *)
Inductive task :=
| Polling (videoId : string)
| AwaitClip (videoId : string) (durationPerClip : Z) (relevantClips : list clip)
            (current : clip) (rest : list clip) (listContent : list listEntry)
| AwaitEncoder (videoId : string) (durationPerClip : Z)
               (relevantClips : list clip) (listContent : list listEntry)
| Settled (r : result)
| Crashed.

Record system := System {
  store : world;
  tasks : list task
}.

(* ===================================================================== *)
(** ** Clip registry *)
(* ===================================================================== *)

(** [x || d] on a possibly missing string: the empty string is falsy too. *)
Definition orElse (x : option string) (d : string) : string :=
  match x with
  | Some s => if decide (s = "") then d else s
  | None => d
  end.

(** [createClip(channelId, clipData)]; [uuid] is what [crypto.randomUUID()]
    returns and [now] the clock. *)
Definition createClip (channelId uuid : string) (now : Z)
    (category title : string) (startTime endTime : jsTime)
    (cs : gmap string (list clip)) : gmap string (list clip) * clip :=
  let clip := Clip uuid category title startTime endTime now false in
  (<[channelId := default [] (cs !! channelId) ++ [clip]]> cs, clip).

Definition set_clips (cs : gmap string (list clip)) (w : world) : world :=
  World (streams w) cs (generatingVideos w) (videosDir w) (clipsDir w)
        (tempDir w) (spawned w).

Definition set_streams (ss : gmap string stream) (w : world) : world :=
  World ss (clips w) (generatingVideos w) (videosDir w) (clipsDir w)
        (tempDir w) (spawned w).

(** [POST /api/stream/:channelId/start] *)
Definition streamStart (channelId : string) (now : Z) (w : world) : world :=
  set_streams (<[channelId := Stream now "Stream" now [] None]> (streams w)) w.

(** [POST /webhooks/twitch/category-change], past the signature check and
    the challenge reply. *)
Definition categoryChange (channelId : string) (oldCategory : option string)
    (newCategory uuid : string) (now : Z) (w : world) : world :=
  match streams w !! channelId with
  | Some st =>
      let '(cs, _) :=
        createClip channelId uuid now
          (orElse oldCategory "Stream") (orElse oldCategory "Segment")
          (NumberMs (lastSegmentStart st)) (NumberMs now) (clips w) in
      let st' := Stream (stream_startTime st) newCategory now
                        (stream_clips st) (stream_endTime st) in
      set_streams (<[channelId := st']> (streams w)) (set_clips cs w)
  | None => w
  end.

(** [POST /api/stream/:channelId/clip]; the two times are what
    [new Date(...)] makes of the body's fields. *)
Definition postClip (channelId uuid : string) (now : Z)
    (category title : string) (startTime endTime : option Z)
    (w : world) : world :=
  let '(cs, clip) :=
    createClip channelId uuid now category title
      (DateObj startTime) (DateObj endTime) (clips w) in
  let ss := match streams w !! channelId with
            | Some st =>
                <[channelId := Stream (stream_startTime st) (currentCategory st)
                                 (lastSegmentStart st) (stream_clips st ++ [clip])
                                 (stream_endTime st)]> (streams w)
            | None => streams w
            end in
  set_streams ss (set_clips cs w).

(* ===================================================================== *)
(** ** Clip selection and time budget *)
(* ===================================================================== *)

(** [clip.startTime.getTime() < cutoffTime].  [None] is the [TypeError]
    raised when [startTime] is a number, which has no [getTime]; an invalid
    date has time value [NaN], and [NaN < x] is false. *)
Definition beforeCutoff (cutoffTime : Z) (c : clip) : option bool :=
  match startTime c with
  | DateObj (Some ms) => Some (ms <? cutoffTime)
  | DateObj None => Some false
  | NumberMs _ => None
  end.

(** [Array.prototype.filter] with a callback that may throw: the elements
    are visited in order, and the first exception ends the call. *)
Fixpoint filterClips (p : clip -> option bool) (l : list clip)
    : option (list clip) :=
  match l with
  | [] => Some []
  | c :: l' =>
      match p c with
      | None => None
      | Some b =>
          match filterClips p l' with
          | None => None
          | Some r => Some (if b then c :: r else r)
          end
      end
  end.

(** The number a time value converts to in a subtraction ([None] is [NaN]). *)
Definition valueOf (t : jsTime) : option Z :=
  match t with
  | DateObj o => o
  | NumberMs ms => Some ms
  end.

(** The comparator [(a, b) => b.startTime - a.startTime]; a [NaN] result
    counts as [0] in [Array.prototype.sort]. *)
Definition compareFn (a b : clip) : Z :=
  match valueOf (startTime b), valueOf (startTime a) with
  | Some y, Some x => y - x
  | _, _ => 0
  end.

(** The time value of a clip's start, where it has one. *)
Definition startMs (c : clip) : Z := default 0 (valueOf (startTime c)).

(** [Array.prototype.sort] is stable: [a] is placed before the first element
    that the comparator does not put strictly before it. *)
Fixpoint insertSorted (a : clip) (l : list clip) : list clip :=
  match l with
  | [] => [a]
  | b :: l' => if compareFn a b <=? 0 then a :: b :: l'
               else b :: insertSorted a l'
  end.

Definition sortClips (l : list clip) : list clip :=
  foldr insertSorted [] l.

(** Lines 269-275: [filter], [sort], [slice(0, 5)]. *)
Definition selectClips (streamClips : list clip) (minutesLate now : Z)
    : option (list clip) :=
  let cutoffTime := now - minutesLate * 60000 in
  match filterClips (beforeCutoff cutoffTime) streamClips with
  | None => None
  | Some kept => Some (take 5 (sortClips kept))
  end.

(** Lines 283-284. *)
Definition totalDurationPerClip (n : nat) : Z := 60000 / Z.of_nat n.
Definition durationPerClip (n : nat) : Z := totalDurationPerClip n / 1000.

(* ===================================================================== *)
(** ** File names *)
(* ===================================================================== *)

(** [`${channelId}_${minutesLate}min_${Date.now()}`] *)
Definition videoId (channelId : string) (minutesLate now : Z) : string :=
  channelId +:+ "_" +:+ pretty minutesLate +:+ "min_" +:+ pretty now.

(** [`${channelId}_${minutesLate}min`], the key the [catch] clause deletes. *)
Definition catchKey (channelId : string) (minutesLate : Z) : string :=
  channelId +:+ "_" +:+ pretty minutesLate +:+ "min".

(** Names inside [VIDEOS_DIR], [TEMP_DIR] and [CLIPS_DIR]. *)
Definition videoPath (videoId : string) : string := videoId +:+ ".mp4".
Definition listFile (videoId : string) : string := videoId +:+ "_list.txt".
Definition clipVideoPath (c : clip) : string :=
  "clip_" +:+ clip_id c +:+ ".mp4".

Definition videoUrl (videoId : string) : string :=
  "/videos/" +:+ videoId +:+ ".mp4".

(** The characters a number is rendered with. *)
Definition isDigit (c : ascii) : Prop :=
  exists n, c = pretty_N_char n.

Definition newline : string := String (ascii_of_nat 10) EmptyString.

(** The text written to the list file. *)
Definition renderList (listContent : list listEntry) : string :=
  foldl (fun acc e =>
           acc +:+ "file '" +:+ mediaPath e +:+ "'" +:+ newline
               +:+ "duration " +:+ pretty (declaredDuration e) +:+ newline)
        "" listContent.

(* ===================================================================== *)
(** ** The generation coordinator *)
(* ===================================================================== *)

Definition set_generating (g : gset string) (w : world) : world :=
  World (streams w) (clips w) g (videosDir w) (clipsDir w) (tempDir w)
        (spawned w).

Definition set_videosDir (d : gmap string file) (w : world) : world :=
  World (streams w) (clips w) (generatingVideos w) d (clipsDir w) (tempDir w)
        (spawned w).

Definition set_clipsDir (d : gmap string Z) (w : world) : world :=
  World (streams w) (clips w) (generatingVideos w) (videosDir w) d (tempDir w)
        (spawned w).

Definition set_tempDir (d : gmap string string) (w : world) : world :=
  World (streams w) (clips w) (generatingVideos w) (videosDir w) (clipsDir w)
        d (spawned w).

Definition spawn (p : proc) (w : world) : world :=
  World (streams w) (clips w) (generatingVideos w) (videosDir w) (clipsDir w)
        (tempDir w) (spawned w ++ [p]).

(** [fs.existsSync] *)
Definition existsSync {V} (d : gmap string V) (name : string) : bool :=
  bool_decide (is_Some (d !! name)).

(** The [for] loop of lines 293-305 followed by lines 307-322, from the
    clip [rest] starts with.  It runs until the first clip whose media file
    is missing, where it spawns the placeholder generator and suspends on
    the [await]; when no clip is left it writes the list file, spawns the
    encoder and suspends until the encoder closes. *)
Fixpoint clipLoop (vid : string) (d : Z) (relevantClips rest : list clip)
    (listContent : list listEntry) (w : world) : world * task :=
  match rest with
  | [] =>
      let w1 := set_tempDir (<[listFile vid := renderList listContent]>
                               (tempDir w)) w in
      (spawn (FfmpegConcat (listFile vid) (videoPath vid)) w1,
       AwaitEncoder vid d relevantClips listContent)
  | c :: rest' =>
      if existsSync (clipsDir w) (clipVideoPath c)
      then clipLoop vid d relevantClips rest'
             (listContent ++ [ListEntry (clipVideoPath c) d]) w
      else (spawn (FfmpegLavfi (clipVideoPath c) d) w,
            AwaitClip vid d relevantClips c rest' listContent)
  end.

(** [generateRecapVideo(channelId, minutesLate)] up to its first suspension.
    [now0] is the clock read on line 229 and [now1] the one read on
    line 269. *)
Definition generateRecapVideo (channelId : string) (minutesLate : Z)
    (now0 now1 : Z) (w : world) : world * task :=
  let vid := videoId channelId minutesLate now0 in
  if existsSync (videosDir w) (videoPath vid)
  then (w, Settled (Cached vid (videoUrl vid)))
  else if bool_decide (vid ∈ generatingVideos w)
  then (w, Polling vid)
  else
    let w1 := set_generating ({[vid]} ∪ generatingVideos w) w in
    let streamClips := default [] (clips w1 !! channelId) in
    if bool_decide (length streamClips = 0%nat)
    then (set_generating (generatingVideos w1 ∖ {[vid]}) w1,
          Settled (Error "No clips available"))
    else
      match selectClips streamClips minutesLate now1 with
      | None =>
          (* the TypeError reaches the catch clause of line 350 *)
          (set_generating
             (generatingVideos w1 ∖ {[catchKey channelId minutesLate]}) w1,
           Settled (Error "clip.startTime.getTime is not a function"))
      | Some relevantClips =>
          if bool_decide (length relevantClips = 0%nat)
          then (set_generating (generatingVideos w1 ∖ {[vid]}) w1,
                Settled (Error "No relevant clips"))
          else
            clipLoop vid (durationPerClip (length relevantClips))
                     relevantClips relevantClips [] w1
      end.

(** [createTestClipVideo] has closed for a task suspended on line 299: the
    media file is there with the requested length, the two lines of the
    clip are appended and the loop goes on. *)
Definition onClipClose (t : task) (w : world) : world * task :=
  match t with
  | AwaitClip vid d relevantClips c rest listContent =>
      let w1 := set_clipsDir (<[clipVideoPath c := d]> (clipsDir w)) w in
      clipLoop vid d relevantClips rest
               (listContent ++ [ListEntry (clipVideoPath c) d]) w1
  | _ => (w, t)
  end.

(** The encoder has closed with exit code [code], having left [out] at the
    video path ([None]: no file written): the handler of lines 324-344.  When
    the code is 0 and there is no file to [statSync], the handler throws
    and the promise is never settled.  The video path is looked at when the
    encoder closes, and not before: what ffmpeg has written there while it
    ran enters the videos directory with this event, whatever the exit
    code, and the handler removes nothing from that directory. *)
Definition onEncoderClose (code : Z) (out : option file) (t : task)
    (w : world) : world * task :=
  match t with
  | AwaitEncoder vid d relevantClips listContent =>
      let w0 := match out with
                | Some f => set_videosDir (<[videoPath vid := f]> (videosDir w)) w
                | None => w
                end in
      let w1 := set_generating (generatingVideos w0 ∖ {[vid]}) w0 in
      let w2 := set_tempDir (delete (listFile vid) (tempDir w1)) w1 in
      if bool_decide (code = 0)
      then match videosDir w2 !! videoPath vid with
           | Some st =>
               (w2, Settled (Generated vid (videoUrl vid) (st_size st)
                               (d * Z.of_nat (length relevantClips))))
           | None => (w2, Crashed)
           end
      else (w2, Settled (Error "Failed to generate video"))
  | _ => (w, t)
  end.

(** One firing of the one-second timer of lines 246-255. *)
Definition onTick (t : task) (w : world) : task :=
  match t with
  | Polling vid =>
      if bool_decide (vid ∉ generatingVideos w)
         && existsSync (videosDir w) (videoPath vid)
      then Settled (Awaited vid (videoUrl vid))
      else Polling vid
  | _ => t
  end.

(* ===================================================================== *)
(** ** The retention sweep *)
(* ===================================================================== *)

Definition age24h : Z := 24 * 60 * 60 * 1000.

(** The [forEach] of lines 411-421 over the names [files].  The flag tells
    whether an exception ended it early: [statSync] throws on a name that
    is not there, [unlinkSync] throws on a directory. *)
Fixpoint forEachFile (now : Z) (files : list string) (d : gmap string file)
    : gmap string file * bool :=
  match files with
  | [] => (d, false)
  | file :: files' =>
      match d !! file with
      | None => (d, true)
      | Some stat =>
          let ageMs := now - mtimeMs stat in
          if ageMs >? age24h
          then if isDirectory stat then (d, true)
               else forEachFile now files' (delete file d)
          else forEachFile now files' d
      end
  end.

(** What [fs.readdirSync] may return for a directory: its names, each once,
    in the order the operating system chooses. *)
Definition isListing (files : list string) (d : gmap string file) : Prop :=
  NoDup files /\ forall f, f ∈ files <-> is_Some (d !! f).

(** The body of the hourly timer, [files] being what [readdirSync] returned:
    the [try] around the [forEach]; the [catch] only logs. *)
Definition cleanup (now : Z) (files : list string) (w : world) : world :=
  set_videosDir (forEachFile now files (videosDir w)).1 w.

(* ===================================================================== *)
(** ** The server as a transition system *)
(* ===================================================================== *)

Inductive event :=
| Request (channelId : string) (minutesLate : Z) (now0 now1 : Z)
| ClipClose (i : nat)
| EncoderClose (i : nat) (code : Z) (out : option file)
| Tick (i : nat)
| Cleanup (now : Z) (files : list string)
| StreamStart (channelId : string) (now : Z)
| CategoryChange (channelId : string) (oldCategory : option string)
                 (newCategory uuid : string) (now : Z)
| PostClip (channelId uuid : string) (now : Z) (category title : string)
           (startTime endTime : option Z).

(** Advance task [i] with [f]; an index that names no task changes nothing. *)
Definition withTask (i : nat) (f : task -> world -> world * task)
    (s : system) : system :=
  match tasks s !! i with
  | Some t => let '(w', t') := f t (store s) in
              System w' (<[i := t']> (tasks s))
  | None => s
  end.

Definition step (s : system) (e : event) : system :=
  match e with
  | Request channelId minutesLate now0 now1 =>
      let '(w', t) :=
        generateRecapVideo channelId minutesLate now0 now1 (store s) in
      System w' (tasks s ++ [t])
  | ClipClose i => withTask i onClipClose s
  | EncoderClose i code out => withTask i (onEncoderClose code out) s
  | Tick i => withTask i (fun t w => (w, onTick t w)) s
  | Cleanup now files => System (cleanup now files (store s)) (tasks s)
  | StreamStart channelId now =>
      System (streamStart channelId now (store s)) (tasks s)
  | CategoryChange channelId oldCategory newCategory uuid now =>
      System (categoryChange channelId oldCategory newCategory uuid now
                (store s)) (tasks s)
  | PostClip channelId uuid now category title startTime endTime =>
      System (postClip channelId uuid now category title startTime endTime
                (store s)) (tasks s)
  end.

Definition run (s : system) (es : list event) : system := foldl step s es.

(** A server that has just started: nothing in memory, no request yet. *)
Definition boot (videos : gmap string file) (media : gmap string Z)
    (temp : gmap string string) : system :=
  System (World ∅ ∅ ∅ videos media temp []) [].

(* ===================================================================== *)
(** ** The remaining routes and the webhook's signature check *)
(* ===================================================================== *)

(** What a route answers: a body, or a status with an error message. *)
Inductive response (A : Type) :=
| Ok (body : A)
| Status (code : Z) (error : string).
Arguments Ok {A} body.
Arguments Status {A} code error.

Record streamInfoBody := StreamInfoBody {
  info_channelId : string;
  info_startTime : Z;
  info_currentCategory : string;
  clipsCount : nat
}.

(** [GET /api/stream/:channelId/info] *)
Definition streamInfo (channelId : string) (w : world)
    : response streamInfoBody :=
  match streams w !! channelId with
  | None => Status 404 "Stream not found"
  | Some st =>
      Ok (StreamInfoBody channelId (stream_startTime st) (currentCategory st)
            (length (stream_clips st)))
  end.

(** [POST /api/stream/:channelId/end]: the new store, or the 404. *)
Definition streamEnd (channelId : string) (now : Z) (w : world)
    : response world :=
  match streams w !! channelId with
  | None => Status 404 "Stream not found"
  | Some st =>
      Ok (set_streams
            (<[channelId := Stream (stream_startTime st) (currentCategory st)
                              (lastSegmentStart st) (stream_clips st)
                              (Some now)]> (streams w)) w)
  end.

(** [GET /api/stream/:channelId/clips] *)
Definition getClips (channelId : string) (w : world) : list clip :=
  default [] (clips w !! channelId).

(** [GET /health]: the number of streams and of entries of [VIDEOS_DIR]. *)
Definition health (w : world) : nat * nat :=
  (size (streams w), size (videosDir w)).

(** [!x] on a header or an environment variable: absent or empty. *)
Definition falsy (x : option string) : bool :=
  match x with
  | None => true
  | Some v => bool_decide (v = "")
  end.

(** What the middleware does with the request. *)
Inductive verdict :=
| Next
| Forbidden (error : string).

Section EventSub.

(** [crypto.createHmac('sha256', key).update(message).digest('hex')] and
    [new Date(s).getTime()] ([None] is [NaN]) are not code of the
    repository: the check is modelled over any two such functions. *)
Variable hmacSha256Hex : string -> string -> string.
Variable dateGetTime : string -> option Z.

(** [Math.abs(currentTime - messageTime) > 600], in seconds; a comparison
    with [NaN] is false. *)
Definition tooOld (now : Z) (messageTimestamp : string) : bool :=
  match dateGetTime messageTimestamp with
  | Some ms => Z.abs (now / 1000 - ms / 1000) >? 600
  | None => false
  end.

Definition computedSignature (secret messageId messageTimestamp body : string)
    : string :=
  "sha256=" +:+ hmacSha256Hex secret (messageId +:+ messageTimestamp +:+ body).

(** [validateEventSubSignature], lines 55-92.  The strings stand for the
    bytes [Buffer.from] and [update] make of the header values and of the
    raw body.  [crypto.timingSafeEqual] throws when the two buffers differ
    in length; what it returns is not looked at. *)
Definition validateEventSubSignature (secret : option string)
    (messageId messageTimestamp messageSignature : option string)
    (body : string) (now : Z) : verdict :=
  match secret with
  | None => Next
  | Some key =>
      if bool_decide (key = "") then Next
      else
        match messageId, messageTimestamp, messageSignature with
        | Some mid, Some ts, Some sig =>
            if falsy (Some mid) || falsy (Some ts) || falsy (Some sig)
            then Forbidden "Invalid signature"
            else if tooOld now ts
            then Forbidden "Timestamp too old"
            else if bool_decide
                      (String.length sig
                       = String.length (computedSignature key mid ts body))
            then Next
            else Forbidden "Invalid signature"
        | _, _, _ => Forbidden "Invalid signature"
        end
  end.

End EventSub.

(* ===================================================================== *)
(** ** Predicates of the statements *)
(* ===================================================================== *)

(** A clip whose start is a valid [Date]. *)
Definition hasDate (c : clip) : Prop :=
  exists ms, startTime c = DateObj (Some ms).

(** Most recent first. *)
Definition newerFirst (a b : clip) : Prop := startMs b <= startMs a.

(** The key whose artifact a task is producing, while it is producing it. *)
Definition generating (t : task) : option string :=
  match t with
  | AwaitClip vid _ _ _ _ _ => Some vid
  | AwaitEncoder vid _ _ _ => Some vid
  | _ => None
  end.

(** The list entry of a clip under a per-clip duration. *)
Definition entryOf (d : Z) (c : clip) : listEntry :=
  ListEntry (clipVideoPath c) d.

(** A key in flight: marked, with no artifact yet (the video path is looked
    at when the encoder closes), and the key of a request. *)
Definition key_ok (w : world) (vid : string) : Prop :=
  vid ∈ generatingVideos w
  /\ videosDir w !! videoPath vid = None
  /\ exists channelId minutesLate now, vid = videoId channelId minutesLate now.

Definition budget_ok (d : Z) (relevantClips : list clip) : Prop :=
  (1 <= length relevantClips <= 5)%nat
  /\ d = durationPerClip (length relevantClips).

Definition task_ok (w : world) (t : task) : Prop :=
  match t with
  | AwaitClip vid d relevantClips c rest listContent =>
      key_ok w vid /\ budget_ok d relevantClips
      /\ map (entryOf d) relevantClips
         = listContent ++ map (entryOf d) (c :: rest)
  | AwaitEncoder vid d relevantClips listContent =>
      key_ok w vid /\ budget_ok d relevantClips
      /\ listContent = map (entryOf d) relevantClips
  | Settled (Generated _ _ _ duration) =>
      exists n : nat,
        (1 <= n <= 5)%nat /\ duration = durationPerClip n * Z.of_nat n
  | _ => True
  end.

(** No two tasks produce the artifact of one key. *)
Definition exclusive (ts : list task) : Prop :=
  forall i j ti tj vid,
    ts !! i = Some ti -> ts !! j = Some tj ->
    generating ti = Some vid -> generating tj = Some vid -> i = j.

Definition coherent (s : system) : Prop :=
  Forall (task_ok (store s)) (tasks s) /\ exclusive (tasks s).

(** The output paths of the placeholder syntheses among spawned processes. *)
Definition lavfiOutput (p : proc) : option string :=
  match p with
  | FfmpegLavfi outputPath _ => Some outputPath
  | FfmpegConcat _ _ => None
  end.

Definition lavfiOutputs (ps : list proc) : list string := omap lavfiOutput ps.

(** The placeholder a task is waiting for, with the length it asked for. *)
Definition pendingOf (t : task) : option (string * Z) :=
  match t with
  | AwaitClip _ d _ c _ _ => Some (clipVideoPath c, d)
  | _ => None
  end.

Definition pendingClips (ts : list task) : list (string * Z) :=
  omap pendingOf ts.

(** A schedule in which no request arrives while a placeholder is being
    synthesized. *)
Fixpoint unhurried (s : system) (es : list event) : Prop :=
  match es with
  | [] => True
  | e :: es' =>
      match e with
      | Request _ _ _ _ => pendingClips (tasks s) = []
      | _ => True
      end /\ unhurried (step s e) es'
  end.

(** Every synthesized placeholder is on disk with the length it was made
    with, or is the one being made; at most one is being made. *)
Definition serial (s : system) : Prop :=
  NoDup (lavfiOutputs (spawned (store s)))
  /\ (length (pendingClips (tasks s)) <= 1)%nat
  /\ (forall p d, (p, d) ∈ pendingClips (tasks s) ->
                  clipsDir (store s) !! p = None
                  /\ FfmpegLavfi p d ∈ spawned (store s))
  /\ (forall p d, FfmpegLavfi p d ∈ spawned (store s) ->
                  clipsDir (store s) !! p = Some d
                  \/ (p, d) ∈ pendingClips (tasks s)).

(** The events of the clip registry, as opposed to those of the recap
    engine. *)
Definition registryEvent (e : event) : bool :=
  match e with
  | StreamStart _ _ | CategoryChange _ _ _ _ _ | PostClip _ _ _ _ _ _ _ => true
  | _ => false
  end.

(** A clip whose start time is a plain number. *)
Definition hasNumber (c : clip) : Prop :=
  exists ms, startTime c = NumberMs ms.

(** The clips a stream counts are clips of its channel, in order, and were
    all made by [POST /clip]. *)
Definition streams_ok (w : world) : Prop :=
  forall ch st,
    streams w !! ch = Some st ->
    stream_clips st `sublist_of` getClips ch w
    /\ Forall (fun c => exists o, startTime c = DateObj o) (stream_clips st).

(** Every marker is the key of some request. *)
Definition markers_are_keys (w : world) : Prop :=
  forall vid, vid ∈ generatingVideos w ->
    exists channelId minutesLate now, vid = videoId channelId minutesLate now.

Definition isCleanup (e : event) : bool :=
  match e with
  | Cleanup _ _ => true
  | _ => false
  end.

(** A clip that holds a valid date strictly before the cutoff. *)
Definition startsBefore (cutoffTime : Z) (c : clip) : bool :=
  match startTime c with
  | DateObj (Some ms) => ms <? cutoffTime
  | _ => false
  end.

(** The sweep at [now] throws on the name [f] of the directory [d]:
    [statSync] on a name that is not there, [unlinkSync] on a directory
    older than 24 hours. *)
Definition throwsOn (now : Z) (d : gmap string file) (f : string) : bool :=
  match d !! f with
  | None => true
  | Some stat => (now - mtimeMs stat >? age24h) && isDirectory stat
  end.

(** The listing [pre ++ rest] splits where the sweep ends: it throws on no
    name of [pre], and [rest] is empty or begins with a name it throws on. *)
Definition stopsAt (now : Z) (d : gmap string file)
    (pre rest : list string) : Prop :=
  Forall (fun f => throwsOn now d f = false) pre
  /\ match rest with
     | [] => True
     | f :: _ => throwsOn now d f = true
     end.

(** Whether the sweep over [pre ++ rest] ends with an exception. *)
Definition threw (rest : list string) : bool :=
  match rest with
  | [] => false
  | _ :: _ => true
  end.

(** An entry of the videos directory that a sweep at [now] keeps. *)
Definition young (now : Z) (entry : string * file) : Prop :=
  now - mtimeMs entry.2 <= age24h.

#[global] Instance young_dec (now : Z) (entry : string * file) :
  Decision (young now entry) := decide (now - mtimeMs entry.2 <= age24h).

Definition isCategoryChange (e : event) : bool :=
  match e with
  | CategoryChange _ _ _ _ _ => true
  | _ => false
  end.

(** Every clip of the registry holds dates. *)
Definition clips_have_dates (w : world) : Prop :=
  forall ch l, clips w !! ch = Some l ->
    Forall (fun c => exists o, startTime c = DateObj o) l.

(** Every marker belongs to a generation that is running. *)
Definition markers_are_running (s : system) : Prop :=
  forall vid, vid ∈ generatingVideos (store s) ->
    exists i t, tasks s !! i = Some t /\ generating t = Some vid.

(** The list file of every generation whose encoder runs is on disk, with
    the text of its list. *)
Definition temp_ok (s : system) : Prop :=
  forall i vid d rel lc,
    tasks s !! i = Some (AwaitEncoder vid d rel lc) ->
    tempDir (store s) !! listFile vid = Some (renderList lc).

(** The states a server goes through after it has started. *)
Definition reachable (s : system) : Prop :=
  exists videos media temp es, s = run (boot videos media temp) es.

(* ===================================================================== *)
(** ** Example data *)
(* ===================================================================== *)

Definition clipA : clip :=
  Clip "a" "Chat" "one" (DateObj (Some 50000)) (DateObj (Some 55000)) 0 false.
Definition clipB : clip :=
  Clip "b" "Game" "two" (DateObj (Some 80000)) (DateObj (Some 85000)) 0 false.
Definition clipC : clip :=
  Clip "c" "Game" "three" (DateObj None) (DateObj None) 0 false.

(** A server on which channel [c1] has received clips [a] and [b] through
    [POST /clip]. *)
Definition twoClips : system :=
  run (boot ∅ ∅ ∅)
      [PostClip "c1" "a" 0 "Chat" "one" (Some 50000) (Some 55000);
       PostClip "c1" "b" 0 "Game" "two" (Some 80000) (Some 85000)].

(** Channel [c1] has just been asked for a recap: both clips are selected
    and the placeholder of the more recent one is being synthesized. *)
Definition firstRequest : system :=
  run twoClips [Request "c1" 0 100000 100000].

(** The same generation once both placeholders are there: the encoder runs. *)
Definition encoding : system :=
  run firstRequest [ClipClose 0; ClipClose 0].

(** The first request has been served: its artifact is in [VIDEOS_DIR]. *)
Definition servedOnce : system :=
  run encoding [EncoderClose 0 0 (Some (File 4096 100500 false))].

(** A stream whose only clip was cut by the category-change webhook. *)
Definition webhookClip : system :=
  run (boot ∅ ∅ ∅)
      [StreamStart "c1" 1000;
       CategoryChange "c1" (Some "Chat") "Game" "u1" 5000].

(** A second request for the key of [firstRequest] has arrived while the
    first is still generating. *)
Definition waiting : system :=
  step firstRequest (Request "c1" 0 100000 100003).

(** Channel [c1] is asked for the same recap twice, one millisecond apart:
    the second request arrives while the first is generating. *)
Definition nearSimultaneous : system :=
  run twoClips [Request "c1" 0 100000 100000; Request "c1" 0 100001 100001].

(** Both of them once their placeholders are there and their encoders have
    exited with code 0. *)
Definition bothServed : system :=
  run nearSimultaneous
      [ClipClose 0; ClipClose 0; ClipClose 1;
       EncoderClose 0 0 (Some (File 4096 100500 false));
       EncoderClose 1 0 (Some (File 4100 100600 false))].

(** The encoder of [waiting] exits with code 1 and leaves a file of 17
    bytes at the video path; then the timer of the poller fires. *)
Definition failedWithOutput : system :=
  run waiting
      [ClipClose 0; ClipClose 0;
       EncoderClose 0 1 (Some (File 17 100400 false)); Tick 1].

(** A videos directory with a subdirectory and an artifact, both last
    modified at instant 0, and an artifact modified 24 hours later. *)
Definition staleVideos : gmap string file :=
  {[ "old" := File 64 0 true;
     "c1_0min_100000.mp4" := File 4096 0 false;
     "c1_0min_86400000.mp4" := File 4096 86400000 false ]}.

(** Two recap requests one millisecond apart: the second arrives while the
    first waits for the placeholder of clip [a]. *)
Definition overlappingRequests : list event :=
  [PostClip "c1" "a" 0 "Chat" "one" (Some 50000) (Some 55000);
   PostClip "c1" "b" 0 "Game" "two" (Some 80000) (Some 85000);
   Request "c1" 1 130000 130000;
   Request "c1" 0 130001 130001;
   ClipClose 1; ClipClose 0; ClipClose 1].

(** The same two requests, the second after the first has been served. *)
Definition oneAtATime : list event :=
  [PostClip "c1" "a" 0 "Chat" "one" (Some 50000) (Some 55000);
   PostClip "c1" "b" 0 "Game" "two" (Some 80000) (Some 85000);
   Request "c1" 1 130000 130000;
   ClipClose 0;
   EncoderClose 0 0 (Some (File 4096 131000 false));
   Request "c1" 0 140000 140000;
   ClipClose 1].

(* ===================================================================== *)
(** * Properties *)
(* ===================================================================== *)

(** ** Keys and file names *)

Section Names.

Lemma string_app_assoc (a b c : string) : (a +:+ b) +:+ c = a +:+ (b +:+ c).
Proof.
  induction a as [|x a IH]; [done|].
  change (String x ((a +:+ b) +:+ c) = String x (a +:+ (b +:+ c))).
  by rewrite IH.
Qed.

Lemma string_app_length (a b : string) :
  String.length (a +:+ b) = (String.length a + String.length b)%nat.
Proof.
  induction a as [|x a IH]; [done|].
  change (S (String.length (a +:+ b)) = S (String.length a + String.length b)).
  by rewrite IH.
Qed.

(** Appending a fixed suffix is injective. *)
Lemma string_app_inj_r (t a b : string) : a +:+ t = b +:+ t -> a = b.
Proof.
  revert b. induction a as [|x a IH]; intros [|y b] H.
  - done.
  - apply (f_equal String.length) in H.
    change (String y b +:+ t) with (String y (b +:+ t)) in H.
    change ("" +:+ t) with t in H.
    simpl in H. rewrite string_app_length in H. lia.
  - apply (f_equal String.length) in H.
    change (String x a +:+ t) with (String x (a +:+ t)) in H.
    change ("" +:+ t) with t in H.
    simpl in H. rewrite string_app_length in H. lia.
  - change (String x (a +:+ t) = String y (b +:+ t)) in H.
    injection H as -> H. f_equal. by apply IH.
Qed.

(** Two strings that are equal end with the same character. *)
Lemma string_last_eq (a b : string) (c1 c2 : ascii) :
  a +:+ String c1 "" = b +:+ String c2 "" -> c1 = c2.
Proof.
  revert b. induction a as [|x a IH]; intros [|y b] H.
  - by injection H.
  - change (String c1 "" = String y (b +:+ String c2 "")) in H.
    injection H as _ H. by destruct b.
  - change (String x (a +:+ String c1 "") = String c2 "") in H.
    injection H as _ H. by destruct a.
  - change (String x (a +:+ String c1 "") = String y (b +:+ String c2 "")) in H.
    injection H as _ H. by eapply IH.
Qed.

Lemma pretty_N_go_suffix (x : N) (s : string) :
  exists p, pretty_N_go x s = p +:+ s.
Proof.
  revert s. induction (N.lt_wf_0 x) as [x _ IH]; intros s.
  destruct (decide (x = 0%N)) as [->|Hx].
  - exists "". by rewrite pretty_N_go_0.
  - rewrite pretty_N_go_step by lia.
    destruct (IH (x `div` 10)%N) with
      (s := String (pretty_N_char (x `mod` 10)) s) as [p Hp].
    { apply N.div_lt; lia. }
    exists (p +:+ String (pretty_N_char (x `mod` 10)) "").
    by rewrite Hp, string_app_assoc.
Qed.

Lemma pretty_positive_last (x : positive) :
  exists p c, pretty x = p +:+ String c "" /\ isDigit c.
Proof.
  unfold pretty, pretty_positive, pretty, pretty_N.
  rewrite decide_False by done.
  rewrite pretty_N_go_step by lia.
  destruct (pretty_N_go_suffix (N.pos x `div` 10)
              (String (pretty_N_char (N.pos x `mod` 10)) "")) as [p Hp].
  exists p, (pretty_N_char (N.pos x `mod` 10)). split; [done|]. by eexists.
Qed.

(** The decimal rendering of an integer ends with a digit. *)
Lemma pretty_Z_last (z : Z) :
  exists p c, pretty z = p +:+ String c "" /\ isDigit c.
Proof.
  destruct z as [|x|x].
  - exists "", "0"%char. split; [done|]. by exists 0%N.
  - apply pretty_positive_last.
  - destruct (pretty_positive_last x) as (p & c & Hp & Hc).
    exists ("-" +:+ p), c. split; [|done].
    change (pretty (Z.neg x)) with ("-" +:+ pretty x).
    by rewrite Hp, string_app_assoc.
Qed.

Lemma isDigit_not_n : ~ isDigit "n"%char.
Proof.
  intros [n Hn]. unfold pretty_N_char in Hn.
  repeat case_match; discriminate.
Qed.

(** The key embeds the clock reading: two instants give two keys. *)
Lemma videoId_now_inj (channelId : string) (minutesLate now now' : Z) :
  videoId channelId minutesLate now = videoId channelId minutesLate now' ->
  now = now'.
Proof.
  unfold videoId. intros H.
  do 4 apply (inj (String.app _)) in H.
  by apply (inj pretty) in H.
Qed.

(** The key of the [catch] clause is the key of no request at all. *)
Lemma catchKey_not_videoId (channelId channelId' : string)
    (minutesLate minutesLate' now : Z) :
  catchKey channelId minutesLate <> videoId channelId' minutesLate' now.
Proof.
  unfold catchKey, videoId. intros H.
  destruct (pretty_Z_last now) as (p & c & Hp & Hc). rewrite Hp in H.
  change "min" with ("mi" +:+ String "n" "") in H.
  rewrite <- !string_app_assoc in H.
  apply string_last_eq in H. subst c. by apply isDigit_not_n.
Qed.

Lemma videoPath_inj (v v' : string) : videoPath v = videoPath v' -> v = v'.
Proof. apply string_app_inj_r. Qed.

End Names.

(** ** Clip selection *)

Section Selection.

Lemma insertSorted_perm (a : clip) (l : list clip) :
  insertSorted a l ≡ₚ a :: l.
Proof.
  induction l as [|b l IH]; simpl; [done|].
  destruct (compareFn a b <=? 0); [done|].
  rewrite IH. apply perm_swap.
Qed.

Lemma sortClips_perm (l : list clip) : sortClips l ≡ₚ l.
Proof.
  induction l as [|a l IH]; simpl; [done|].
  by rewrite insertSorted_perm, IH.
Qed.

Lemma compareFn_dates (a b : clip) :
  hasDate a -> hasDate b -> compareFn a b = startMs b - startMs a.
Proof.
  intros [x Ha] [y Hb]. unfold compareFn, startMs. by rewrite Ha, Hb.
Qed.

Lemma insertSorted_sorted (a : clip) (l : list clip) :
  hasDate a -> Forall hasDate l ->
  StronglySorted newerFirst l -> StronglySorted newerFirst (insertSorted a l).
Proof.
  intros Ha. induction l as [|b l IH]; intros Hl Hs; simpl.
  - by repeat constructor.
  - apply Forall_cons in Hl as [Hb Hl].
    apply StronglySorted_cons in Hs as [Hbl Hs].
    rewrite (compareFn_dates a b Ha Hb).
    destruct (Z.leb_spec (startMs b - startMs a) 0) as [Hle|Hgt].
    + apply StronglySorted_cons. split.
      * constructor; [unfold newerFirst; lia|].
        eapply Forall_impl; [exact Hbl|].
        unfold newerFirst. intros c Hc. lia.
      * by apply StronglySorted_cons.
    + apply StronglySorted_cons. split; [|by apply IH].
      rewrite insertSorted_perm. constructor; [|done].
      unfold newerFirst. lia.
Qed.

Lemma sortClips_sorted (l : list clip) :
  Forall hasDate l -> StronglySorted newerFirst (sortClips l).
Proof.
  induction l as [|a l IH]; intros Hl; simpl; [constructor|].
  apply Forall_cons in Hl as [Ha Hl].
  apply insertSorted_sorted; [done| |by apply IH].
  by rewrite sortClips_perm.
Qed.

(** On clips that all hold a [Date], the filter of line 273 throws nothing
    and keeps the clips that start strictly before the cutoff. *)
Lemma filterClips_dates (cutoffTime : Z) (l : list clip) :
  Forall (fun c => exists o, startTime c = DateObj o) l ->
  filterClips (beforeCutoff cutoffTime) l =
  Some (List.filter
          (fun c => match startTime c with
                    | DateObj (Some ms) => ms <? cutoffTime
                    | _ => false
                    end) l).
Proof.
  induction l as [|c l IH]; intros Hl; [done|].
  apply Forall_cons in Hl as [[o Hc] Hl]. simpl.
  rewrite (IH Hl). unfold beforeCutoff. rewrite Hc.
  by destruct o as [ms|]; [destruct (ms <? cutoffTime)|].
Qed.

Lemma filter_hasDate (cutoffTime : Z) (l : list clip) :
  Forall hasDate
    (List.filter
       (fun c => match startTime c with
                 | DateObj (Some ms) => ms <? cutoffTime
                 | _ => false
                 end) l).
Proof.
  apply Forall_forall. intros c Hc.
  apply list_elem_of_In, filter_In in Hc as [_ Hc].
  destruct (startTime c) as [[ms|]|] eqn:E; try done. by exists ms.
Qed.

(** The selection on clips made by [POST /clip], whose start times are
    dates: for every [minutesLate] and every [now] it is the first five (at
    most) of a rearrangement, sorted by start time descending, of exactly
    the clips that start strictly before [now - minutesLate * 60000]. *)
Theorem selection_is_recent_five_before_cutoff
    (streamClips : list clip) (minutesLate now : Z) :
  Forall (fun c => exists o, startTime c = DateObj o) streamClips ->
  exists sorted,
    selectClips streamClips minutesLate now = Some (take 5 sorted)
    /\ sorted ≡ₚ
         List.filter
           (fun c => match startTime c with
                     | DateObj (Some ms) => ms <? now - minutesLate * 60000
                     | _ => false
                     end) streamClips
    /\ StronglySorted (fun a b => startMs b <= startMs a) sorted
    /\ (length (take 5 sorted) <= 5)%nat.
Proof.
  intros Hdates. unfold selectClips.
  rewrite (filterClips_dates _ _ Hdates).
  eexists. split; [reflexivity|]. split; [apply sortClips_perm|]. split.
  - apply sortClips_sorted, filter_hasDate.
  - rewrite length_take. lia.
Qed.

Lemma selection_is_recent_five_before_cutoff_witness :
  Forall (fun c => exists o, startTime c = DateObj o) [clipA; clipB; clipC]
  /\ exists sorted,
       selectClips [clipA; clipB; clipC] 0 100000 = Some (take 5 sorted)
       /\ sorted ≡ₚ [clipA; clipB]
       /\ StronglySorted (fun a b => startMs b <= startMs a) sorted
       /\ (length (take 5 sorted) <= 5)%nat.
Proof.
  assert (Forall (fun c => exists o, startTime c = DateObj o)
            [clipA; clipB; clipC]) as H.
  { repeat constructor; by eexists. }
  split; [exact H|].
  exact (selection_is_recent_five_before_cutoff [clipA; clipB; clipC] 0 100000 H).
Defined.

(** C4 (the code departs from it). The clip cut by the category-change
    webhook starts at 1000, strictly before the cutoff 9000 of a request
    with [minutesLate = 0]; the filter calls [getTime] on the number and
    throws, so nothing is selected and the request settles with the
    message of the [TypeError]. *)
Theorem selection_throws_on_webhook_clip :
  clips (store webhookClip) !! "c1"
  = Some [Clip "u1" "Chat" "Chat" (NumberMs 1000) (NumberMs 5000) 5000 false]
  /\ 1000 < 9000 - 0 * 60000
  /\ selectClips
       [Clip "u1" "Chat" "Chat" (NumberMs 1000) (NumberMs 5000) 5000 false]
       0 9000
     = None
  /\ (generateRecapVideo "c1" 0 9000 9000 (store webhookClip)).2
     = Settled (Error "clip.startTime.getTime is not a function").
Proof. repeat split; by vm_compute. Qed.

End Selection.

(** ** Events and the tasks they are addressed to *)

Lemma withTask_unfold (i : nat) (f : task -> world -> world * task)
    (s : system) (t : task) :
  tasks s !! i = Some t ->
  withTask i f s = System (f t (store s)).1 (<[i := (f t (store s)).2]> (tasks s)).
Proof. unfold withTask. intros ->. by destruct (f t (store s)). Qed.

Lemma withTask_none (i : nat) (f : task -> world -> world * task)
    (s : system) :
  tasks s !! i = None -> withTask i f s = s.
Proof. unfold withTask. by intros ->. Qed.

Lemma withTask_other (i k : nat) (f : task -> world -> world * task)
    (s : system) :
  i <> k -> tasks (withTask i f s) !! k = tasks s !! k.
Proof.
  intros Hne. unfold withTask. destruct (tasks s !! i) as [t|]; [|done].
  destruct (f t (store s)). simpl. by rewrite list_lookup_insert_ne.
Qed.

(** Case analysis on the task an event is addressed to: the event is
    dropped when there is no such task. *)
Ltac at_task s i t Hi :=
  destruct (tasks s !! i) as [t|] eqn:Hi;
  [rewrite (withTask_unfold _ _ _ _ Hi)|by rewrite withTask_none].

(** ** The coordinator's invariant *)

Section Invariant.

Lemma run_app (s : system) (es es' : list event) :
  run s (es ++ es') = run (run s es) es'.
Proof. unfold run. by rewrite foldl_app. Qed.

(** What the loop leaves alone, and where it stops. *)
Lemma clipLoop_spec (vid : string) (d : Z) (rel rest : list clip)
    (lc : list listEntry) (w : world) :
  let r := clipLoop vid d rel rest lc w in
  streams r.1 = streams w /\ clips r.1 = clips w
  /\ generatingVideos r.1 = generatingVideos w
  /\ videosDir r.1 = videosDir w
  /\ ((exists c rest' lc',
         r.2 = AwaitClip vid d rel c rest' lc'
         /\ lc ++ map (entryOf d) rest = lc' ++ map (entryOf d) (c :: rest'))
      \/ r.2 = AwaitEncoder vid d rel (lc ++ map (entryOf d) rest)).
Proof.
  revert lc. induction rest as [|c rest IH]; intros lc; simpl.
  - repeat split; try done. right. by rewrite app_nil_r.
  - destruct (existsSync (clipsDir w) (clipVideoPath c)).
    + specialize (IH (lc ++ [ListEntry (clipVideoPath c) d])).
      simpl in IH. destruct IH as (?&?&?&?&IH). repeat split; try done.
      rewrite <- !app_assoc in IH. exact IH.
    + simpl. repeat split; try done. left. by exists c, rest, lc.
Qed.

Lemma clipLoop_task_ok (vid : string) (d : Z) (rel rest : list clip)
    (lc : list listEntry) (w : world) :
  key_ok w vid -> budget_ok d rel ->
  map (entryOf d) rel = lc ++ map (entryOf d) rest ->
  task_ok (clipLoop vid d rel rest lc w).1 (clipLoop vid d rel rest lc w).2
  /\ generating (clipLoop vid d rel rest lc w).2 = Some vid.
Proof.
  intros (Hg & Hv & Hk) Hb Hm.
  destruct (clipLoop_spec vid d rel rest lc w) as (_&_&Eg&Ev&Hr).
  assert (key_ok (clipLoop vid d rel rest lc w).1 vid) as Hkey.
  { unfold key_ok. by rewrite Eg, Ev. }
  destruct Hr as [(c & rest' & lc' & -> & Hlc)| ->].
  - split; [|done]. split; [done|]. split; [done|]. by rewrite Hm.
  - split; [|done]. split; [done|]. split; [done|]. by rewrite Hm.
Qed.

(** Tasks stay in order when the store changes without disturbing the keys
    they hold. *)
Lemma tasks_ok_transfer (w w' : world) (ts : list task) :
  Forall (task_ok w) ts ->
  (forall t vid, t ∈ ts -> generating t = Some vid ->
                 key_ok w vid -> key_ok w' vid) ->
  Forall (task_ok w') ts.
Proof.
  intros Hts Hkeep. apply Forall_forall. intros t Ht.
  pose proof (proj1 (Forall_forall _ _) Hts t Ht) as Hok.
  destruct t; simpl in *; try done.
  - destruct Hok as (Hk & ?). split; [|done]. by eapply Hkeep.
  - destruct Hok as (Hk & ?). split; [|done]. by eapply Hkeep.
Qed.

Lemma task_ok_key (w : world) (t : task) (vid : string) :
  task_ok w t -> generating t = Some vid -> key_ok w vid.
Proof. destruct t; simpl; intros H [= <-]; by destruct H. Qed.

Lemma exclusive_insert (ts : list task) (i : nat) (t t' : task) :
  exclusive ts -> ts !! i = Some t ->
  (forall vid, generating t' = Some vid -> generating t = Some vid) ->
  exclusive (<[i := t']> ts).
Proof.
  intros Hex Hi Hgen a b ta tb vid Ha Hb Hga Hgb.
  assert (forall k tk, <[i := t']> ts !! k = Some tk ->
            generating tk = Some vid ->
            exists tk0, ts !! k = Some tk0 /\ generating tk0 = Some vid) as Hold.
  { intros k tk Hk Hgk. destruct (decide (i = k)) as [->|Hne].
    - rewrite list_lookup_insert_eq in Hk by (by eapply lookup_lt_Some).
      injection Hk as <-. exists t. split; [done|]. by apply Hgen.
    - rewrite list_lookup_insert_ne in Hk by done. by exists tk. }
  destruct (Hold a ta Ha Hga) as (ta0 & Ha0 & Hga0).
  destruct (Hold b tb Hb Hgb) as (tb0 & Hb0 & Hgb0).
  by eapply Hex.
Qed.

Lemma exclusive_snoc (ts : list task) (t : task) :
  exclusive ts ->
  (forall vid t0, generating t = Some vid -> t0 ∈ ts ->
                  generating t0 <> Some vid) ->
  exclusive (ts ++ [t]).
Proof.
  intros Hex Hfresh a b ta tb vid Ha Hb Hga Hgb.
  destruct (decide (a < length ts)%nat) as [Hla|Hla];
    destruct (decide (b < length ts)%nat) as [Hlb|Hlb].
  - rewrite lookup_app_l in Ha, Hb by done. by eapply Hex.
  - rewrite lookup_app_l in Ha by done.
    rewrite lookup_app_r in Hb by lia.
    apply list_lookup_singleton_Some in Hb as [_ <-].
    exfalso. eapply Hfresh; [exact Hgb| |exact Hga].
    by eapply list_elem_of_lookup_2.
  - rewrite lookup_app_l in Hb by done.
    rewrite lookup_app_r in Ha by lia.
    apply list_lookup_singleton_Some in Ha as [_ <-].
    exfalso. eapply Hfresh; [exact Hga| |exact Hgb].
    by eapply list_elem_of_lookup_2.
  - rewrite lookup_app_r in Ha, Hb by lia.
    apply list_lookup_singleton_Some in Ha as [Ha _].
    apply list_lookup_singleton_Some in Hb as [Hb _]. lia.
Qed.

Lemma key_ok_same (w w' : world) (vid : string) :
  generatingVideos w' = generatingVideos w -> videosDir w' = videosDir w ->
  key_ok w vid -> key_ok w' vid.
Proof. unfold key_ok. by intros -> ->. Qed.

Lemma coherent_store (w' : world) (s : system) :
  coherent s ->
  (forall vid, key_ok (store s) vid -> key_ok w' vid) ->
  coherent (System w' (tasks s)).
Proof.
  intros [Hts Hex] Hkeep. split; [|done]. simpl.
  eapply tasks_ok_transfer; [exact Hts|]. intros t vid _ _. apply Hkeep.
Qed.

Lemma coherent_snoc (w' : world) (t : task) (s : system) :
  coherent s ->
  (forall t0 vid, t0 ∈ tasks s -> generating t0 = Some vid ->
                  key_ok (store s) vid -> key_ok w' vid) ->
  task_ok w' t ->
  (forall vid t0, generating t = Some vid -> t0 ∈ tasks s ->
                  generating t0 <> Some vid) ->
  coherent (System w' (tasks s ++ [t])).
Proof.
  intros [Hts Hex] Hkeep Ht Hfresh. split; simpl.
  - apply Forall_app. split; [|by repeat constructor].
    by eapply tasks_ok_transfer.
  - by apply exclusive_snoc.
Qed.

Lemma coherent_withTask (i : nat) (t t' : task) (w' : world) (s : system) :
  coherent s -> tasks s !! i = Some t ->
  task_ok w' t' ->
  (forall vid, generating t' = Some vid -> generating t = Some vid) ->
  (forall k tk vid, k <> i -> tasks s !! k = Some tk ->
                    generating tk = Some vid ->
                    key_ok (store s) vid -> key_ok w' vid) ->
  coherent (System w' (<[i := t']> (tasks s))).
Proof.
  intros [Hts Hex] Hi Ht' Hgen Hkeep. split; simpl.
  - apply Forall_lookup. intros k tk Hk.
    destruct (decide (i = k)) as [->|Hne].
    + rewrite list_lookup_insert_eq in Hk by (by eapply lookup_lt_Some).
      by injection Hk as <-.
    + rewrite list_lookup_insert_ne in Hk by done.
      pose proof (proj1 (Forall_lookup _ _) Hts k tk Hk) as Hok.
      destruct tk; simpl in *; try done.
      * destruct Hok as (Hkey & ?). split; [|done].
        eapply (Hkeep k); [congruence|exact Hk|done|done].
      * destruct Hok as (Hkey & ?). split; [|done].
        eapply (Hkeep k); [congruence|exact Hk|done|done].
  - by eapply exclusive_insert.
Qed.

Lemma existsSync_false {V} (d : gmap string V) (name : string) :
  existsSync d name = false -> d !! name = None.
Proof.
  unfold existsSync. intros H%bool_decide_eq_false.
  by apply eq_None_not_Some.
Qed.

Lemma selectClips_length (l rel : list clip) (minutesLate now : Z) :
  selectClips l minutesLate now = Some rel -> (length rel <= 5)%nat.
Proof.
  unfold selectClips. destruct (filterClips _ l); [|done].
  intros [= <-]. rewrite length_take. lia.
Qed.

Lemma marked_then_unmarked (g : gset string) (vid k vid' : string) :
  vid' ∈ g -> vid' <> k -> vid' ∈ ({[vid]} ∪ g) ∖ {[k]}.
Proof.
  intros Hin Hne. apply elem_of_difference. split.
  - apply elem_of_union. by right.
  - by intros ?%elem_of_singleton.
Qed.

(** A request leaves the invariant in place, whichever way it goes. *)
Lemma generateRecapVideo_coherent (channelId : string)
    (minutesLate now0 now1 : Z) (s : system) :
  coherent s ->
  coherent (step s (Request channelId minutesLate now0 now1)).
Proof.
  intros Hs. simpl.
  destruct (generateRecapVideo channelId minutesLate now0 now1 (store s))
    as [w' t] eqn:E.
  unfold generateRecapVideo in E.
  set (vid := videoId channelId minutesLate now0) in *.
  destruct (existsSync (videosDir (store s)) (videoPath vid)) eqn:Ex.
  { injection E as <- <-. apply coherent_snoc; auto; done. }
  apply existsSync_false in Ex.
  destruct (bool_decide (vid ∈ generatingVideos (store s))) eqn:Eg.
  { injection E as <- <-. apply coherent_snoc; auto; done. }
  apply bool_decide_eq_false in Eg.
  assert (forall t0 vid', t0 ∈ tasks s -> generating t0 = Some vid' ->
            vid' <> vid) as Hfresh.
  { intros t0 vid' Ht0 Hg0 ->. destruct Hs as [Hts _].
    pose proof (proj1 (Forall_forall _ _) Hts t0 Ht0) as Hok.
    apply (task_ok_key _ _ _ Hok) in Hg0 as (Hin & _). done. }
  simpl in E.
  destruct (bool_decide (length (default [] (clips (store s) !! channelId)) = 0%nat)).
  { injection E as <- <-. apply coherent_snoc; auto; [|done].
    intros t0 vid' Ht0 Hg0 (Hin & Hv & Hk). repeat split; simpl; try done.
    apply marked_then_unmarked; [done|]. by eapply Hfresh. }
  destruct (selectClips _ minutesLate now1) as [rel|] eqn:Esel.
  2:{ injection E as <- <-. apply coherent_snoc; auto; [|done].
      intros t0 vid' Ht0 Hg0 (Hin & Hv & Hk). repeat split; simpl; try done.
      destruct Hk as (c & m & n & ->).
      apply marked_then_unmarked; [done|].
      intros Heq. by eapply catchKey_not_videoId. }
  destruct (bool_decide (length rel = 0%nat)) eqn:El.
  { injection E as <- <-. apply coherent_snoc; auto; [|done].
    intros t0 vid' Ht0 Hg0 (Hin & Hv & Hk). repeat split; simpl; try done.
    apply marked_then_unmarked; [done|]. by eapply Hfresh. }
  apply bool_decide_eq_false in El.
  set (w1 := set_generating ({[vid]} ∪ generatingVideos (store s)) (store s)) in *.
  destruct (clipLoop_spec vid (durationPerClip (length rel)) rel rel [] w1)
    as (_ & _ & Egen & Evid & _).
  destruct (clipLoop_task_ok vid (durationPerClip (length rel)) rel rel [] w1)
    as [Hok Hgen].
  { repeat split; simpl; [|done|by exists channelId, minutesLate, now0].
    apply elem_of_union. left. by apply elem_of_singleton. }
  { split; [|done]. apply selectClips_length in Esel. lia. }
  { done. }
  rewrite E in Egen, Evid, Hok, Hgen. simpl in *.
  apply coherent_snoc; auto.
  - intros t0 vid' Ht0 Hg0 (Hin & Hv & Hk). unfold key_ok.
    rewrite Egen, Evid. repeat split; try done.
    apply elem_of_union. by right.
  - intros vid' t0 Hg Ht0 Hg0. rewrite Hgen in Hg. injection Hg as <-.
    by eapply Hfresh.
Qed.

Lemma coherent_idle (i : nat) (t : task) (s : system) :
  coherent s -> tasks s !! i = Some t ->
  coherent (System (store s) (<[i := t]> (tasks s))).
Proof.
  intros Hs Hi. rewrite list_insert_id by done. by destruct s.
Qed.

Lemma onClipClose_coherent (i : nat) (s : system) :
  coherent s -> coherent (step s (ClipClose i)).
Proof.
  intros Hs. simpl. at_task s i t Hi.
  destruct t as [|vid d rel c rest lc| | |]; simpl;
    try (by apply coherent_idle).
  pose proof (proj1 (Forall_lookup _ _) (proj1 Hs) i _ Hi) as (Hk & Hb & Hm).
  set (w1 := set_clipsDir _ _).
  destruct (clipLoop_spec vid d rel rest (lc ++ [ListEntry (clipVideoPath c) d]) w1)
    as (_ & _ & Egen & Evid & _).
  destruct (clipLoop_task_ok vid d rel rest
              (lc ++ [ListEntry (clipVideoPath c) d]) w1) as [Hok Hgen].
  { done. }
  { done. }
  { rewrite Hm. by rewrite <- app_assoc. }
  eapply coherent_withTask; eauto.
  - intros vid'. by rewrite Hgen.
  - intros k tk vid' _ _ _. by apply key_ok_same.
Qed.

Lemma onEncoderClose_coherent (i : nat) (code : Z) (out : option file)
    (s : system) :
  coherent s -> coherent (step s (EncoderClose i code out)).
Proof.
  intros Hs. simpl. at_task s i t Hi.
  destruct t as [| |vid d rel lc| |]; try (by apply coherent_idle).
  assert (forall k tk vid', k <> i -> tasks s !! k = Some tk ->
            generating tk = Some vid' -> vid' <> vid) as Hother.
  { intros k tk vid' Hne Hk Hg ->. apply Hne.
    by eapply (proj2 Hs k i tk (AwaitEncoder vid d rel lc) vid). }
  set (r := onEncoderClose code out (AwaitEncoder vid d rel lc) (store s)).
  assert (generating r.2 = None) as Hidle.
  { subst r. simpl. destruct (bool_decide (code = 0)); [|done].
    by destruct (_ !! videoPath vid). }
  assert (generatingVideos r.1 = generatingVideos (store s) ∖ {[vid]}) as Egen.
  { subst r. simpl. destruct (bool_decide (code = 0)).
    - by destruct (_ !! videoPath vid); destruct out.
    - by destruct out. }
  assert (forall p, p <> videoPath vid ->
            videosDir r.1 !! p = videosDir (store s) !! p) as Evid.
  { intros p Hp. subst r. simpl. destruct (bool_decide (code = 0)).
    - destruct (_ !! videoPath vid); destruct out; simpl;
        by rewrite ?lookup_insert_ne.
    - destruct out; simpl; by rewrite ?lookup_insert_ne. }
  pose proof (proj1 (Forall_lookup _ _) (proj1 Hs) i _ Hi) as (_ & Hb & _).
  eapply coherent_withTask; eauto.
  - subst r. simpl. destruct (bool_decide (code = 0)); [|done].
    destruct (_ !! videoPath vid); [|done].
    simpl. exists (length rel). by destruct Hb as [? ->].
  - intros vid'. by rewrite Hidle.
  - intros k tk vid' Hne Hk Hg (Hin & Hv & Hform).
    specialize (Hother k tk vid' Hne Hk Hg).
    repeat split; [| |done].
    + rewrite Egen. apply elem_of_difference. split; [done|].
      by intros ?%elem_of_singleton.
    + rewrite Evid; [done|]. by intros ?%videoPath_inj.
Qed.

Lemma onTick_coherent (i : nat) (s : system) :
  coherent s -> coherent (step s (Tick i)).
Proof.
  intros Hs. simpl. at_task s i t Hi. simpl.
  destruct t as [vid| | | |]; try (by apply coherent_idle).
  eapply coherent_withTask; eauto.
  - simpl. by destruct (_ && _).
  - intros vid'. simpl. by destruct (_ && _).
Qed.

(** The sweep adds no file. *)
Lemma forEachFile_lookup_None (now : Z) (files : list string)
    (d : gmap string file) (p : string) :
  d !! p = None -> (forEachFile now files d).1 !! p = None.
Proof.
  revert d. induction files as [|f files IH]; intros d Hp; simpl; [done|].
  destruct (d !! f) as [st|]; [|done].
  destruct (now - mtimeMs st >? age24h); [|by apply IH].
  destruct (isDirectory st); [done|].
  apply IH. by apply lookup_delete_None; right.
Qed.

Lemma coherent_step (s : system) (e : event) :
  coherent s -> coherent (step s e).
Proof.
  intros Hs. destruct e.
  - by apply generateRecapVideo_coherent.
  - by apply onClipClose_coherent.
  - by apply onEncoderClose_coherent.
  - by apply onTick_coherent.
  - simpl. apply coherent_store; [done|].
    intros vid (Hin & Hv & Hform). repeat split; [done| |done].
    simpl. by apply forEachFile_lookup_None.
  - simpl. apply coherent_store; [done|]. intros vid. by apply key_ok_same.
  - simpl. apply coherent_store; [done|]. intros vid.
    unfold categoryChange. destruct (streams (store s) !! channelId); [|done].
    by apply key_ok_same.
  - simpl. apply coherent_store; [done|]. intros vid. by apply key_ok_same.
Qed.

Lemma coherent_run (s : system) (es : list event) :
  coherent s -> coherent (run s es).
Proof.
  revert s. induction es as [|e es IH]; intros s Hs; [done|].
  apply IH. by apply coherent_step.
Qed.

Lemma coherent_boot (videos : gmap string file) (media : gmap string Z)
    (temp : gmap string string) :
  coherent (boot videos media temp).
Proof. split; [constructor|]. intros i j ti tj vid Hi. done. Qed.

End Invariant.

Create HintDb recap discriminated.
#[export] Hint Resolve coherent_boot coherent_run coherent_step : recap.

(** ** Requests for one key *)

Section SameKey.

(** What one event does to the task at index [k]: nothing, unless the
    event is addressed to it. *)
Lemma step_task_at (s : system) (e : event) (k : nat) (tk : task) :
  tasks s !! k = Some tk ->
  tasks (step s e) !! k = Some tk
  \/ (e = ClipClose k
      /\ step s e = System (onClipClose tk (store s)).1
                           (<[k := (onClipClose tk (store s)).2]> (tasks s)))
  \/ (exists code out,
        e = EncoderClose k code out
        /\ step s e = System (onEncoderClose code out tk (store s)).1
                        (<[k := (onEncoderClose code out tk (store s)).2]> (tasks s)))
  \/ (e = Tick k
      /\ step s e = System (store s) (<[k := onTick tk (store s)]> (tasks s))).
Proof.
  intros Hk. destruct e; simpl.
  - destruct (generateRecapVideo _ _ _ _ _). left. simpl.
    by apply lookup_app_l_Some.
  - destruct (decide (i = k)) as [->|Hne].
    + right. left. split; [done|]. by rewrite (withTask_unfold _ _ _ _ Hk).
    + left. by rewrite withTask_other.
  - destruct (decide (i = k)) as [->|Hne].
    + right. right. left. exists code, out. split; [done|].
      by rewrite (withTask_unfold _ _ _ _ Hk).
    + left. by rewrite withTask_other.
  - destruct (decide (i = k)) as [->|Hne].
    + right. right. right. split; [done|].
      by rewrite (withTask_unfold _ _ _ _ Hk).
    + left. by rewrite withTask_other.
  - by left.
  - by left.
  - by left.
  - by left.
Qed.

Lemma lookup_insert_self (ts : list task) (k : nat) (t t' : task) :
  ts !! k = Some t -> <[k := t']> ts !! k = Some t'.
Proof. intros H. apply list_lookup_insert_eq. by eapply lookup_lt_Some. Qed.

(** A settled promise stays settled. *)
Lemma settled_step (s : system) (e : event) (k : nat) (r : result) :
  tasks s !! k = Some (Settled r) ->
  tasks (step s e) !! k = Some (Settled r) /\
  (e = ClipClose k \/ (exists code out, e = EncoderClose k code out)
   \/ e = Tick k -> store (step s e) = store s).
Proof.
  intros Hk.
  destruct (step_task_at s e k _ Hk)
    as [H|[[-> ->]|[(code & out & -> & ->)|[-> ->]]]]; simpl.
  - split; [done|]. intros [->|[(code & out & ->)| ->]]; simpl.
    + by rewrite (withTask_unfold _ _ _ _ Hk).
    + by rewrite (withTask_unfold _ _ _ _ Hk).
    + by rewrite (withTask_unfold _ _ _ _ Hk).
  - split; [|done]. by eapply lookup_insert_self.
  - split; [|done]. by eapply lookup_insert_self.
  - split; [|done]. by eapply lookup_insert_self.
Qed.

(** A polling request does nothing but poll: it changes no state, and the
    only thing it can become is the artifact of its key. *)
Lemma polling_step (s : system) (e : event) (k : nat) (vid : string) :
  tasks s !! k = Some (Polling vid) ->
  (tasks (step s e) !! k = Some (Polling vid)
   \/ tasks (step s e) !! k = Some (Settled (Awaited vid (videoUrl vid)))) /\
  (e = ClipClose k \/ (exists code out, e = EncoderClose k code out)
   \/ e = Tick k -> store (step s e) = store s).
Proof.
  intros Hk.
  destruct (step_task_at s e k _ Hk)
    as [H|[[-> ->]|[(code & out & -> & ->)|[-> ->]]]]; simpl.
  - split; [by left|]. intros [->|[(code & out & ->)| ->]]; simpl.
    + by rewrite (withTask_unfold _ _ _ _ Hk).
    + by rewrite (withTask_unfold _ _ _ _ Hk).
    + by rewrite (withTask_unfold _ _ _ _ Hk).
  - split; [|done]. left. by eapply lookup_insert_self.
  - split; [|done]. left. by eapply lookup_insert_self.
  - split; [|done]. rewrite (lookup_insert_self _ _ _ _ Hk).
    destruct (_ && _); [by right|by left].
Qed.

Lemma waiter_forever (s : system) (es : list event) (k : nat) (vid : string) :
  tasks s !! k = Some (Polling vid)
  \/ tasks s !! k = Some (Settled (Awaited vid (videoUrl vid))) ->
  tasks (run s es) !! k = Some (Polling vid)
  \/ tasks (run s es) !! k = Some (Settled (Awaited vid (videoUrl vid))).
Proof.
  revert s. induction es as [|e es IH]; intros s H; [done|].
  apply IH. destruct H as [H|H].
  - by apply polling_step.
  - right. by apply settled_step.
Qed.

(** The request for a key in flight becomes a poller and touches nothing. *)
Lemma request_in_flight (s : system) (i : nat) (t : task)
    (channelId : string) (minutesLate now0 now1 : Z) :
  coherent s -> tasks s !! i = Some t ->
  generating t = Some (videoId channelId minutesLate now0) ->
  step s (Request channelId minutesLate now0 now1)
  = System (store s)
           (tasks s ++ [Polling (videoId channelId minutesLate now0)]).
Proof.
  intros [Hts _] Hi Hg.
  pose proof (proj1 (Forall_lookup _ _) Hts i t Hi) as Hok.
  destruct (task_ok_key _ _ _ Hok Hg) as (Hin & Hv & _).
  simpl. unfold generateRecapVideo, existsSync.
  rewrite bool_decide_eq_false_2 by (rewrite Hv; by intros [? ?]).
  by rewrite bool_decide_eq_true_2.
Qed.

End SameKey.

Section SingleEncode.

Lemma coherent_reachable (s : system) : reachable s -> coherent s.
Proof.
  intros (videos & media & temp & es & ->). auto with recap.
Qed.

(** Requests that compute the very same key string, clock reading of
    line 229 included.  In every state the server can reach, no two tasks
    generate for one such key.  A request whose key string is being
    generated is answered by the same synchronous check-and-mark: it changes
    nothing in the store (it spawns no process) and becomes a poller;
    whatever happens next, it only ever polls or settles with the artifact
    of that key, and no event addressed to it changes the store; and when
    the generation settles with an artifact, the poller's next tick settles
    with the same id and url. *)
Lemma same_key_requests_encode_once
    (s : system) (i : nat) (t : task)
    (channelId : string) (minutesLate now0 now1 : Z) :
  reachable s ->
  tasks s !! i = Some t ->
  generating t = Some (videoId channelId minutesLate now0) ->
  exclusive (tasks s)
  /\ step s (Request channelId minutesLate now0 now1)
     = System (store s)
              (tasks s ++ [Polling (videoId channelId minutesLate now0)])
  /\ forall es',
       (tasks (run s (Request channelId minutesLate now0 now1 :: es'))
          !! length (tasks s)
        = Some (Polling (videoId channelId minutesLate now0))
        \/ tasks (run s (Request channelId minutesLate now0 now1 :: es'))
             !! length (tasks s)
           = Some (Settled (Awaited (videoId channelId minutesLate now0)
                              (videoUrl (videoId channelId minutesLate now0)))))
       /\ (forall e,
             e = ClipClose (length (tasks s))
             \/ (exists code out, e = EncoderClose (length (tasks s)) code out)
             \/ e = Tick (length (tasks s)) ->
             store (step (run s (Request channelId minutesLate now0 now1 :: es')) e)
             = store (run s (Request channelId minutesLate now0 now1 :: es')))
       /\ (forall d rel lc code out id url size duration,
             tasks (run s (Request channelId minutesLate now0 now1 :: es')) !! i
             = Some (AwaitEncoder (videoId channelId minutesLate now0) d rel lc) ->
             tasks (step (run s (Request channelId minutesLate now0 now1 :: es'))
                         (EncoderClose i code out)) !! i
             = Some (Settled (Generated id url size duration)) ->
             tasks (run s (Request channelId minutesLate now0 now1
                             :: es' ++ [EncoderClose i code out;
                                        Tick (length (tasks s))]))
               !! length (tasks s)
             = Some (Settled (Awaited id url))).
Proof.
  set (vid := videoId channelId minutesLate now0).
  set (k := length (tasks s)).
  intros Hs%coherent_reachable Hi Hg.
  pose proof (request_in_flight s i t channelId minutesLate now0 now1 Hs Hi Hg)
    as Hreq.
  fold vid in Hreq.
  split; [apply Hs|]. split; [exact Hreq|]. intros es'.
  assert (forall es0, run s (Request channelId minutesLate now0 now1 :: es0)
          = run (System (store s) (tasks s ++ [Polling vid])) es0) as Hrun.
  { intros es0. unfold run at 1. simpl.
    fold (step s (Request channelId minutesLate now0 now1)).
    by rewrite Hreq. }
  rewrite !Hrun.
  set (s1 := run (System (store s) (tasks s ++ [Polling vid])) es').
  assert (tasks s1 !! k = Some (Polling vid)
          \/ tasks s1 !! k = Some (Settled (Awaited vid (videoUrl vid)))) as Hk.
  { apply waiter_forever. left. simpl. subst k.
    by rewrite lookup_app_r, Nat.sub_diag by lia. }
  split; [exact Hk|]. split.
  - intros e He. destruct Hk as [Hk|Hk].
    + by apply (polling_step s1 e k vid Hk).
    + by apply (settled_step s1 e k _ Hk).
  - intros d rel lc code out id url size duration Hi1 Hgen.
    rewrite Hrun, run_app. fold s1.
    change (run s1 [EncoderClose i code out; Tick k])
      with (step (step s1 (EncoderClose i code out)) (Tick k)).
    assert (i <> k) as Hne.
    { intros ->. rewrite Hi1 in Hk. by destruct Hk. }
    revert Hgen. simpl.
    rewrite (withTask_unfold _ _ _ _ Hi1). simpl.
    rewrite (lookup_insert_self _ _ _ _ Hi1).
    destruct (bool_decide (code = 0)); [|done].
    destruct (_ !! videoPath vid) as [st|] eqn:Hst; [|done].
    intros [= <- <- <- <-].
    set (w2 := set_tempDir _ _).
    set (ts2 := <[i := _]> (tasks s1)).
    assert (ts2 !! k = tasks s1 !! k) as Hk2
      by (subst ts2; by rewrite list_lookup_insert_ne).
    destruct Hk as [Hk|Hk].
    + rewrite Hk in Hk2.
      rewrite (withTask_unfold k _ (System w2 ts2) _ Hk2). simpl.
      rewrite (lookup_insert_self _ _ _ _ Hk2). simpl.
      unfold existsSync. rewrite Hst.
      rewrite bool_decide_eq_true_2.
      * by rewrite bool_decide_eq_true_2.
      * apply not_elem_of_difference. right. by apply elem_of_singleton.
    + rewrite Hk in Hk2.
      rewrite (withTask_unfold k _ (System w2 ts2) _ Hk2). simpl.
      by rewrite (lookup_insert_self _ _ _ _ Hk2).
Qed.

Lemma same_key_requests_encode_once_witness :
  reachable firstRequest
  /\ tasks firstRequest !! 0%nat
     = Some (AwaitClip "c1_0min_100000" 30 [clipB; clipA] clipB [clipA] [])
  /\ generating (AwaitClip "c1_0min_100000" 30 [clipB; clipA] clipB [clipA] [])
     = Some (videoId "c1" 0 100000)
  /\ exclusive (tasks firstRequest)
  /\ step firstRequest (Request "c1" 0 100000 100003)
     = System (store firstRequest)
              (tasks firstRequest ++ [Polling (videoId "c1" 0 100000)]).
Proof.
  assert (reachable firstRequest) as Hr.
  { exists ∅, ∅, ∅,
      [PostClip "c1" "a" 0 "Chat" "one" (Some 50000) (Some 55000);
       PostClip "c1" "b" 0 "Game" "two" (Some 80000) (Some 85000);
       Request "c1" 0 100000 100000].
    reflexivity. }
  assert (tasks firstRequest !! 0%nat
          = Some (AwaitClip "c1_0min_100000" 30 [clipB; clipA] clipB [clipA] []))
    as Ht by (vm_compute; reflexivity).
  assert (generating (AwaitClip "c1_0min_100000" 30 [clipB; clipA] clipB [clipA] [])
          = Some (videoId "c1" 0 100000)) as Hg by (vm_compute; reflexivity).
  destruct (same_key_requests_encode_once firstRequest 0 _ "c1" 0 100000 100003
              Hr Ht Hg) as (Hex & Hstep & _).
  exact (conj Hr (conj Ht (conj Hg (conj Hex Hstep)))).
Defined.

(** C2 (the code departs from it). Two requests for the same channel and
    the same [minutesLate] that read the clock one millisecond apart make
    two keys, as any two distinct clock readings do.  The second request is
    not held back by the first: both keys are marked at once, both requests
    generate, two encoders are started, and the two callers are answered
    with two different artifacts.  And two callers of one and the same key
    string need not see the same result either: when the encoder exits
    with code 1 and leaves a file, the generating request gets the error
    and the polling one gets the id and url of that file. *)
Theorem near_simultaneous_requests_encode_twice :
  (forall channelId minutesLate now0 now0',
     now0 <> now0' ->
     videoId channelId minutesLate now0 <> videoId channelId minutesLate now0')
  /\ tasks nearSimultaneous
     = [AwaitClip "c1_0min_100000" 30 [clipB; clipA] clipB [clipA] [];
        AwaitClip "c1_0min_100001" 30 [clipB; clipA] clipB [clipA] []]
  /\ generatingVideos (store nearSimultaneous)
     = {[ "c1_0min_100000"; "c1_0min_100001" ]}
  /\ tasks (run nearSimultaneous [ClipClose 0; ClipClose 0; ClipClose 1])
     = [AwaitEncoder "c1_0min_100000" 30 [clipB; clipA]
          [entryOf 30 clipB; entryOf 30 clipA];
        AwaitEncoder "c1_0min_100001" 30 [clipB; clipA]
          [entryOf 30 clipB; entryOf 30 clipA]]
  /\ List.filter (fun p => bool_decide (lavfiOutput p = None))
       (spawned (store bothServed))
     = [FfmpegConcat "c1_0min_100000_list.txt" "c1_0min_100000.mp4";
        FfmpegConcat "c1_0min_100001_list.txt" "c1_0min_100001.mp4"]
  /\ tasks bothServed
     = [Settled (Generated "c1_0min_100000" "/videos/c1_0min_100000.mp4"
                   4096 60);
        Settled (Generated "c1_0min_100001" "/videos/c1_0min_100001.mp4"
                   4100 60)]
  /\ tasks failedWithOutput
     = [Settled (Error "Failed to generate video");
        Settled (Awaited "c1_0min_100000" "/videos/c1_0min_100000.mp4")].
Proof.
  split.
  { intros channelId minutesLate now0 now0' Hne Heq.
    by apply Hne, (videoId_now_inj channelId minutesLate). }
  split; [by vm_compute|]. split.
  { apply (bool_decide_unpack _). by vm_compute. }
  repeat split; by vm_compute.
Qed.

End SingleEncode.

(** ** The time budget *)

Section Budget.

Lemma durationPerClip_total (n : nat) :
  (1 <= n <= 5)%nat -> durationPerClip n * Z.of_nat n <= 60.
Proof.
  intros Hn.
  destruct n as [|[|[|[|[|[|n]]]]]]; try lia; vm_compute; congruence.
Qed.

(** C6. When the encoder of a generation over [n] selected clips closes and
    the request settles with an artifact, [n] is between 1 and 5, the
    per-clip duration is [floor(floor(60000 / n) / 1000)], the list has [n]
    entries that each declare it, and the reported duration is [n] times the
    per-clip duration, never more than 60 seconds. *)
Theorem recap_duration_within_budget
    (s : system) (i : nat) (vid : string) (d : Z) (rel : list clip)
    (lc : list listEntry) (code : Z) (out : option file)
    (id url : string) (size duration : Z) :
  reachable s ->
  tasks s !! i = Some (AwaitEncoder vid d rel lc) ->
  tasks (step s (EncoderClose i code out)) !! i
  = Some (Settled (Generated id url size duration)) ->
  (1 <= length rel <= 5)%nat
  /\ d = 60000 / Z.of_nat (length rel) / 1000
  /\ length lc = length rel
  /\ Forall (fun e => declaredDuration e = d) lc
  /\ duration = Z.of_nat (length rel) * d
  /\ duration <= 60.
Proof.
  intros Hs%coherent_reachable Hi Hgen.
  pose proof (proj1 (Forall_lookup _ _) (proj1 Hs) i _ Hi)
    as (_ & [Hn Hd] & Hlc).
  split; [done|]. split; [done|]. split; [by rewrite Hlc, length_map|].
  split. { rewrite Hlc. by apply Forall_map, Forall_true. }
  revert Hgen. simpl. rewrite (withTask_unfold _ _ _ _ Hi). simpl.
  rewrite (lookup_insert_self _ _ _ _ Hi).
  destruct (bool_decide (code = 0)); [|done].
  destruct (_ !! videoPath vid); [|done].
  intros [= _ _ _ <-]. split; [lia|].
  rewrite Hd. by apply durationPerClip_total.
Qed.

Lemma recap_duration_within_budget_witness :
  reachable encoding
  /\ tasks encoding !! 0%nat
     = Some (AwaitEncoder "c1_0min_100000" 30 [clipB; clipA]
               [entryOf 30 clipB; entryOf 30 clipA])
  /\ tasks (step encoding (EncoderClose 0 0 (Some (File 4096 100500 false))))
       !! 0%nat
     = Some (Settled (Generated "c1_0min_100000" "/videos/c1_0min_100000.mp4"
                        4096 60))
  /\ 30 = 60000 / Z.of_nat (length [clipB; clipA]) / 1000
  /\ 60 = Z.of_nat (length [clipB; clipA]) * 30
  /\ 60 <= 60.
Proof.
  assert (reachable encoding) as Hr.
  { exists ∅, ∅, ∅,
      [PostClip "c1" "a" 0 "Chat" "one" (Some 50000) (Some 55000);
       PostClip "c1" "b" 0 "Game" "two" (Some 80000) (Some 85000);
       Request "c1" 0 100000 100000; ClipClose 0; ClipClose 0].
    reflexivity. }
  assert (tasks encoding !! 0%nat
          = Some (AwaitEncoder "c1_0min_100000" 30 [clipB; clipA]
                    [entryOf 30 clipB; entryOf 30 clipA]))
    as Ht by (vm_compute; reflexivity).
  assert (tasks (step encoding (EncoderClose 0 0 (Some (File 4096 100500 false))))
            !! 0%nat
          = Some (Settled (Generated "c1_0min_100000"
                             "/videos/c1_0min_100000.mp4" 4096 60)))
    as Hg by (vm_compute; reflexivity).
  destruct (recap_duration_within_budget encoding 0 _ _ _ _ _ _ _ _ _ _
              Hr Ht Hg) as (_ & Hd & _ & _ & Hdur & Hle).
  exact (conj Hr (conj Ht (conj Hg (conj Hd (conj Hdur Hle))))).
Defined.

End Budget.

(** ** Exits of a generation *)

Section Exits.

Lemma unmark_fresh (g : gset string) (vid : string) :
  vid ∉ g -> ({[vid]} ∪ g) ∖ {[vid]} = g.
Proof.
  intros Hv. apply set_eq. intros x.
  rewrite elem_of_difference, elem_of_union, !elem_of_singleton.
  split; [by intros [[->|?] ?]|].
  intros Hx. split; [by right|]. by intros ->.
Qed.

Lemma selectClips_nil (l : list clip) (minutesLate now : Z) :
  filterClips (beforeCutoff (now - minutesLate * 60000)) l = Some [] ->
  selectClips l minutesLate now = Some [].
Proof. unfold selectClips. by intros ->. Qed.



(** When the encoder closes, with whatever code, the marker is removed. *)
Lemma encoder_close_clears_marker (s : system) (i : nat) (vid : string)
    (d : Z) (rel : list clip) (lc : list listEntry) (code : Z)
    (out : option file) :
  tasks s !! i = Some (AwaitEncoder vid d rel lc) ->
  vid ∉ generatingVideos (store (step s (EncoderClose i code out))).
Proof.
  intros Hi. simpl. rewrite (withTask_unfold _ _ _ _ Hi). simpl.
  assert (forall g : gset string, vid ∉ g ∖ {[vid]}) as Hgone.
  { intros g. apply not_elem_of_difference. right. by apply elem_of_singleton. }
  destruct (bool_decide (code = 0)).
  - destruct out; simpl; destruct (_ !! videoPath vid); simpl; apply Hgone.
  - destruct out; simpl; apply Hgone.
Qed.

(** The [catch] clause deletes a key that was never set: the marker of the
    request outlives the exception. *)
Lemma thrown_exception_keeps_marker
    (w : world) (channelId : string) (minutesLate now0 now1 : Z) :
  videosDir w !! videoPath (videoId channelId minutesLate now0) = None ->
  videoId channelId minutesLate now0 ∉ generatingVideos w ->
  default [] (clips w !! channelId) <> [] ->
  selectClips (default [] (clips w !! channelId)) minutesLate now1 = None ->
  (generateRecapVideo channelId minutesLate now0 now1 w).2
  = Settled (Error "clip.startTime.getTime is not a function")
  /\ videoId channelId minutesLate now0
       ∈ generatingVideos (generateRecapVideo channelId minutesLate now0 now1 w).1.
Proof.
  intros Hv Hg Hne Hsel. unfold generateRecapVideo, existsSync.
  rewrite bool_decide_eq_false_2 by (rewrite Hv; by intros [? ?]).
  rewrite bool_decide_eq_false_2 by done. simpl.
  rewrite bool_decide_eq_false_2
    by (by destruct (default [] (clips w !! channelId))).
  rewrite Hsel. simpl. split; [done|].
  apply elem_of_difference. split.
  - apply elem_of_union. left. by apply elem_of_singleton.
  - intros Heq%elem_of_singleton. symmetry in Heq.
    by eapply catchKey_not_videoId.
Qed.

(** C3 (the code departs from it). The clip cut by the category-change
    webhook holds a number as its start time; the filter of the next recap
    request throws on it, the [catch] clause deletes the key without the
    instant, and the request settles with the error while its own key stays
    marked in flight. *)
Theorem exception_exit_leaves_marker :
  clips (store webhookClip) !! "c1"
  = Some [Clip "u1" "Chat" "Chat" (NumberMs 1000) (NumberMs 5000) 5000 false]
  /\ tasks (step webhookClip (Request "c1" 0 9000 9000))
     = [Settled (Error "clip.startTime.getTime is not a function")]
  /\ videoId "c1" 0 9000
       ∈ generatingVideos (store (step webhookClip (Request "c1" 0 9000 9000)))
  /\ step (step webhookClip (Request "c1" 0 9000 9000)) (Request "c1" 0 9000 9001)
     = System (store (step webhookClip (Request "c1" 0 9000 9000)))
              [Settled (Error "clip.startTime.getTime is not a function");
               Polling (videoId "c1" 0 9000)].
Proof.
  split; [by vm_compute|]. split; [by vm_compute|]. split.
  - apply (bool_decide_unpack _). by vm_compute.
  - by vm_compute.
Qed.

(** C1 (the code departs from it). The key embeds the clock reading of
    line 229: after a request has been served and its artifact stored, the
    same channel and [minutesLate] asked again 501 ms later make another
    key, miss the artifact and start the encoder a second time. *)
Theorem key_embeds_generation_instant :
  tasks servedOnce
  = [Settled (Generated "c1_0min_100000" "/videos/c1_0min_100000.mp4" 4096 60)]
  /\ videosDir (store servedOnce) !! videoPath (videoId "c1" 0 100000)
     = Some (File 4096 100500 false)
  /\ videoId "c1" 0 100501 <> videoId "c1" 0 100000
  /\ tasks (step servedOnce (Request "c1" 0 100501 100501)) !! 1%nat
     = Some (AwaitEncoder "c1_0min_100501" 30 [clipB; clipA]
               [entryOf 30 clipB; entryOf 30 clipA])
  /\ spawned (store (step servedOnce (Request "c1" 0 100501 100501)))
     = spawned (store servedOnce)
         ++ [FfmpegConcat "c1_0min_100501_list.txt" "c1_0min_100501.mp4"].
Proof.
  split; [by vm_compute|]. split; [by vm_compute|]. split.
  - by intros ?%videoId_now_inj.
  - split; by vm_compute.
Qed.

End Exits.

(** ** Waiting for a generation in flight *)

Section Waiting.

(** While the marker of its key is set, a tick is a no-op. *)
Lemma tick_while_marked (s : system) (k : nat) (vid : string) :
  tasks s !! k = Some (Polling vid) ->
  vid ∈ generatingVideos (store s) ->
  step s (Tick k) = s.
Proof.
  intros Hk Hin. simpl. rewrite (withTask_unfold _ _ _ _ Hk). simpl.
  rewrite bool_decide_eq_false_2 by (by intros Hn; apply Hn).
  simpl. rewrite list_insert_id by done. by destruct s.
Qed.

Lemma ticks_while_marked (s : system) (k : nat) (vid : string) (n : nat) :
  tasks s !! k = Some (Polling vid) ->
  vid ∈ generatingVideos (store s) ->
  run s (replicate n (Tick k)) = s.
Proof.
  intros Hk Hin. induction n as [|n IH]; [done|].
  simpl. unfold run in *. simpl.
  fold (step s (Tick k)). by rewrite (tick_while_marked s k vid).
Qed.




End Waiting.

(** ** Encoder failure *)

Section EncoderFailure.

(** C8 (the claim fails here). Exit codes 1 and 2 settle the request with
    one and the same object, the fixed message: the result does not carry
    the exit code.  And when the encoder that exits with code 1 has left a
    file at the video path, the file stays: a later request for the same
    key is answered from the cache with its id and url, and no encoder is
    started again. *)
Lemma encoder_failure_hides_exit_code :
  tasks (step encoding (EncoderClose 0 1 None)) !! 0%nat
  = Some (Settled (Error "Failed to generate video"))
  /\ tasks (step encoding (EncoderClose 0 2 None)) !! 0%nat
     = Some (Settled (Error "Failed to generate video"))
  /\ tasks (step encoding (EncoderClose 0 1 (Some (File 17 100400 false))))
       !! 0%nat
     = Some (Settled (Error "Failed to generate video"))
  /\ videosDir (store (step encoding
                         (EncoderClose 0 1 (Some (File 17 100400 false)))))
       !! videoPath "c1_0min_100000"
     = Some (File 17 100400 false)
  /\ tasks (run encoding
              [EncoderClose 0 1 (Some (File 17 100400 false));
               Request "c1" 0 100000 100900]) !! 1%nat
     = Some (Settled (Cached "c1_0min_100000" "/videos/c1_0min_100000.mp4"))
  /\ spawned (store (run encoding
                       [EncoderClose 0 1 (Some (File 17 100400 false));
                        Request "c1" 0 100000 100900]))
     = spawned (store encoding).
Proof. repeat split; by vm_compute. Qed.

(** A request whose key is neither cached nor marked, and for which clips
    are selected, generates. *)
Lemma generateRecapVideo_generates
    (w : world) (channelId : string) (minutesLate now0 now1 : Z)
    (rel : list clip) :
  videosDir w !! videoPath (videoId channelId minutesLate now0) = None ->
  videoId channelId minutesLate now0 ∉ generatingVideos w ->
  selectClips (default [] (clips w !! channelId)) minutesLate now1 = Some rel ->
  rel <> [] ->
  generating (generateRecapVideo channelId minutesLate now0 now1 w).2
  = Some (videoId channelId minutesLate now0).
Proof.
  intros Hv Hg Hsel Hrel. unfold generateRecapVideo, existsSync.
  rewrite bool_decide_eq_false_2 by (rewrite Hv; by intros [? ?]).
  rewrite bool_decide_eq_false_2 by done. simpl.
  assert (default [] (clips w !! channelId) <> []) as Hne.
  { intros Hnil. rewrite Hnil in Hsel. injection Hsel as <-. done. }
  rewrite bool_decide_eq_false_2
    by (by destruct (default [] (clips w !! channelId))).
  rewrite Hsel.
  rewrite bool_decide_eq_false_2 by (by destruct rel).
  set (w1 := set_generating _ w).
  destruct (clipLoop_spec (videoId channelId minutesLate now0)
              (durationPerClip (length rel)) rel rel [] w1)
    as (_ & _ & _ & _ & [(c & r & l & -> & _)| ->]); done.
Qed.

(** C8, as the code has it. When the encoder exits with a nonzero code,
    whatever it has left at the video path, the request settles with the
    fixed error [Failed to generate video]; the key is no longer marked;
    the list file is removed, as it is whatever the exit code; and the
    handler removes nothing from the videos directory, which holds at the
    video path what the encoder has left there and is otherwise unchanged.
    If the encoder has left no file, the videos directory is as it was, and
    a later request for the same key that selects clips generates again.
    If it has left one, a later request for the same key is answered from
    the cache and changes nothing, and a request that polls for the key
    settles at its next tick with the id and url of that file. *)
Theorem encoder_failure_is_generic_error
    (s : system) (i : nat) (vid : string) (d : Z) (rel : list clip)
    (lc : list listEntry) (code : Z) (out : option file) :
  reachable s ->
  tasks s !! i = Some (AwaitEncoder vid d rel lc) ->
  code <> 0 ->
  tasks (step s (EncoderClose i code out)) !! i
  = Some (Settled (Error "Failed to generate video"))
  /\ (vid ∉ generatingVideos (store (step s (EncoderClose i code out))))
  /\ (forall code' out',
        tempDir (store (step s (EncoderClose i code' out'))) !! listFile vid
        = None)
  /\ videosDir (store (step s (EncoderClose i code out))) !! videoPath vid
     = out
  /\ (forall p,
        p <> videoPath vid ->
        videosDir (store (step s (EncoderClose i code out))) !! p
        = videosDir (store s) !! p)
  /\ (out = None ->
      videosDir (store (step s (EncoderClose i code out)))
      = videosDir (store s)
      /\ forall channelId minutesLate now0 now1 rel',
           vid = videoId channelId minutesLate now0 ->
           selectClips
             (default [] (clips (store (step s (EncoderClose i code out)))
                            !! channelId)) minutesLate now1 = Some rel' ->
           rel' <> [] ->
           generating
             (generateRecapVideo channelId minutesLate now0 now1
                (store (step s (EncoderClose i code out)))).2
           = Some vid)
  /\ (is_Some out ->
      (forall channelId minutesLate now0 now1,
         vid = videoId channelId minutesLate now0 ->
         generateRecapVideo channelId minutesLate now0 now1
           (store (step s (EncoderClose i code out)))
         = (store (step s (EncoderClose i code out)),
            Settled (Cached vid (videoUrl vid))))
      /\ (forall k,
            tasks s !! k = Some (Polling vid) ->
            tasks (step (step s (EncoderClose i code out)) (Tick k)) !! k
            = Some (Settled (Awaited vid (videoUrl vid))))).
Proof.
  intros Hs%coherent_reachable Hi Hcode.
  pose proof (proj1 (Forall_lookup _ _) (proj1 Hs) i _ Hi)
    as ((_ & Hv & _) & _ & _).
  assert (forall code' out',
            tempDir (store (step s (EncoderClose i code' out'))) !! listFile vid
            = None) as Htemp.
  { intros code' out'. simpl. rewrite (withTask_unfold _ _ _ _ Hi). simpl.
    destruct out' as [f|]; simpl.
    - rewrite lookup_insert_eq.
      destruct (bool_decide (code' = 0)); simpl; apply lookup_delete_eq.
    - rewrite Hv.
      destruct (bool_decide (code' = 0)); simpl; apply lookup_delete_eq. }
  set (vd := match out with
             | Some f => <[videoPath vid := f]> (videosDir (store s))
             | None => videosDir (store s)
             end).
  assert (step s (EncoderClose i code out)
          = System (set_tempDir (delete (listFile vid) (tempDir (store s)))
                      (set_generating (generatingVideos (store s) ∖ {[vid]})
                         (set_videosDir vd (store s))))
                   (<[i := Settled (Error "Failed to generate video")]> (tasks s)))
    as Hstep.
  { simpl. rewrite (withTask_unfold _ _ _ _ Hi). simpl.
    rewrite bool_decide_eq_false_2 by done.
    subst vd. destruct out; [done|]. by destruct (store s). }
  assert (vd !! videoPath vid = out) as Hout.
  { subst vd. destruct out; [apply lookup_insert_eq|exact Hv]. }
  assert (vid ∉ generatingVideos (store (step s (EncoderClose i code out))))
    as Hunmarked.
  { rewrite Hstep. simpl. apply not_elem_of_difference. right.
    by apply elem_of_singleton. }
  split. { rewrite Hstep. simpl. by eapply lookup_insert_self. }
  split; [exact Hunmarked|]. split; [exact Htemp|].
  split. { by rewrite Hstep. }
  split.
  { intros p Hp. rewrite Hstep. simpl. subst vd.
    destruct out; [by apply lookup_insert_ne|done]. }
  split.
  - intros ->. split. { by rewrite Hstep. }
    intros channelId minutesLate now0 now1 rel' -> Hsel Hrel.
    eapply generateRecapVideo_generates; [|exact Hunmarked|exact Hsel|exact Hrel].
    by rewrite Hstep.
  - intros [f ->].
    assert (is_Some (videosDir (store (step s (EncoderClose i code (Some f))))
                       !! videoPath vid)) as Hfile.
    { rewrite Hstep. simpl. rewrite Hout. by eexists. }
    split.
    + intros channelId minutesLate now0 now1 ->.
      unfold generateRecapVideo, existsSync.
      by rewrite bool_decide_eq_true_2 by exact Hfile.
    + intros k Hk.
      assert (i <> k) as Hne by (intros ->; by rewrite Hi in Hk).
      assert (tasks (step s (EncoderClose i code (Some f))) !! k
              = Some (Polling vid)) as Hk'.
      { rewrite Hstep. simpl. by rewrite list_lookup_insert_ne. }
      simpl step at 1.
      rewrite (withTask_unfold _ _ _ _ Hk'). simpl tasks.
      rewrite (lookup_insert_self _ _ _ _ Hk'). f_equal.
      unfold onTick, existsSync.
      rewrite bool_decide_eq_true_2 by exact Hunmarked.
      by rewrite bool_decide_eq_true_2 by exact Hfile.
Qed.

Lemma encoder_failure_is_generic_error_witness :
  reachable encoding
  /\ tasks encoding !! 0%nat
     = Some (AwaitEncoder "c1_0min_100000" 30 [clipB; clipA]
               [entryOf 30 clipB; entryOf 30 clipA])
  /\ 1 <> 0
  /\ tasks (step encoding (EncoderClose 0 1 None)) !! 0%nat
     = Some (Settled (Error "Failed to generate video"))
  /\ videosDir (store (step encoding (EncoderClose 0 1 None)))
       !! videoPath "c1_0min_100000" = None
  /\ tasks (run encoding
              [EncoderClose 0 1 None; Request "c1" 0 100000 100900;
               EncoderClose 1 0 (Some (File 4096 101700 false))]) !! 1%nat
     = Some (Settled (Generated "c1_0min_100000" "/videos/c1_0min_100000.mp4"
                        4096 60))
  /\ tasks (step encoding (EncoderClose 0 1 (Some (File 17 100400 false))))
       !! 0%nat
     = Some (Settled (Error "Failed to generate video"))
  /\ videosDir (store (step encoding
                         (EncoderClose 0 1 (Some (File 17 100400 false)))))
       !! videoPath "c1_0min_100000"
     = Some (File 17 100400 false)
  /\ generateRecapVideo "c1" 0 100000 100900
       (store (step encoding (EncoderClose 0 1 (Some (File 17 100400 false)))))
     = (store (step encoding (EncoderClose 0 1 (Some (File 17 100400 false)))),
        Settled (Cached "c1_0min_100000" (videoUrl "c1_0min_100000"))).
Proof.
  assert (reachable encoding) as Hr.
  { exists ∅, ∅, ∅,
      [PostClip "c1" "a" 0 "Chat" "one" (Some 50000) (Some 55000);
       PostClip "c1" "b" 0 "Game" "two" (Some 80000) (Some 85000);
       Request "c1" 0 100000 100000; ClipClose 0; ClipClose 0].
    reflexivity. }
  assert (tasks encoding !! 0%nat
          = Some (AwaitEncoder "c1_0min_100000" 30 [clipB; clipA]
                    [entryOf 30 clipB; entryOf 30 clipA]))
    as Ht by (vm_compute; reflexivity).
  assert (1 <> 0) as Hc by lia.
  destruct (encoder_failure_is_generic_error encoding 0 _ _ _ _ 1 None
              Hr Ht Hc) as (Hres & _ & _ & Hnone & _).
  destruct (encoder_failure_is_generic_error encoding 0 _ _ _ _ 1
              (Some (File 17 100400 false)) Hr Ht Hc)
    as (Hres' & _ & _ & Hfile & _ & _ & Hcached).
  destruct (Hcached ltac:(by eexists)) as [Hcache _].
  split; [exact Hr|]. split; [exact Ht|]. split; [exact Hc|].
  split; [exact Hres|]. split; [exact Hnone|].
  split; [by vm_compute|].
  split; [exact Hres'|]. split; [exact Hfile|].
  apply (Hcache "c1" 0 100000 100900). by vm_compute.
Defined.

End EncoderFailure.

(** ** The retention sweep *)

Section Sweep.

(** The clock reading of the sweep. *)
Variable now : Z.

Lemma forEachFile_sub (files : list string) (d : gmap string file)
    (p : string) (st : file) :
  (forEachFile now files d).1 !! p = Some st -> d !! p = Some st.
Proof.
  revert d. induction files as [|f files IH]; intros d; simpl; [done|].
  destruct (d !! f) as [stf|]; [|done].
  destruct (now - mtimeMs stf >? age24h); [|by apply IH].
  destruct (isDirectory stf); [done|].
  intros H%IH. by apply lookup_delete_Some in H as [_ H].
Qed.

Lemma forEachFile_untouched (files : list string)
    (d : gmap string file) (p : string) :
  p ∉ files -> (forEachFile now files d).1 !! p = d !! p.
Proof.
  revert d. induction files as [|f files IH]; intros d Hp; simpl; [done|].
  apply not_elem_of_cons in Hp as [Hpf Hp].
  destruct (d !! f) as [stf|]; [|done].
  destruct (now - mtimeMs stf >? age24h); [|by apply IH].
  destruct (isDirectory stf); [done|].
  rewrite IH by done. by apply lookup_delete_ne.
Qed.

Lemma forEachFile_young (files : list string)
    (d : gmap string file) (p : string) (st : file) :
  d !! p = Some st -> now - mtimeMs st <= age24h ->
  (forEachFile now files d).1 !! p = Some st.
Proof.
  revert d. induction files as [|f files IH]; intros d Hp Hy; simpl; [done|].
  destruct (d !! f) as [stf|] eqn:Hf; [|done].
  destruct (Z.gtb_spec (now - mtimeMs stf) age24h) as [Hold|_]; [|by apply IH].
  destruct (isDirectory stf); [done|].
  apply IH; [|done]. rewrite lookup_delete_ne; [done|].
  intros ->. rewrite Hf in Hp. injection Hp as ->. lia.
Qed.

Lemma forEachFile_app (pre l : list string) (d : gmap string file) :
  forEachFile now (pre ++ l) d
  = if (forEachFile now pre d).2 then forEachFile now pre d
    else forEachFile now l (forEachFile now pre d).1.
Proof.
  revert d. induction pre as [|f pre IH]; intros d; simpl; [done|].
  destruct (d !! f) as [stf|]; [|done].
  destruct (now - mtimeMs stf >? age24h); [|by apply IH].
  destruct (isDirectory stf); [done|]. by apply IH.
Qed.

(** A deletion that fails ends the sweep: the entry and everything listed
    after it are as they were. *)
Lemma forEachFile_abort (pre post : list string) (f : string)
    (d : gmap string file) (st : file) :
  NoDup (pre ++ f :: post) ->
  d !! f = Some st -> now - mtimeMs st > age24h -> isDirectory st = true ->
  (forEachFile now (pre ++ f :: post) d).2 = true
  /\ forall p, p ∈ f :: post ->
               (forEachFile now (pre ++ f :: post) d).1 !! p = d !! p.
Proof.
  intros Hnd Hf Hold Hdir.
  assert (forall p, p ∈ f :: post -> p ∉ pre) as Hpre.
  { intros p Hp Hin. apply NoDup_app in Hnd as (_ & Hdisj & _).
    by apply (Hdisj p). }
  rewrite forEachFile_app.
  destruct (forEachFile now pre d).2 eqn:Hthrew.
  - split; [done|]. intros p Hp. apply forEachFile_untouched. by apply Hpre.
  - simpl.
    rewrite (forEachFile_untouched pre d f) by (apply Hpre; by left).
    rewrite Hf. destruct (Z.gtb_spec (now - mtimeMs st) age24h); [|lia].
    rewrite Hdir. split; [done|]. simpl. intros p Hp.
    apply forEachFile_untouched. by apply Hpre.
Qed.

(** Without a failing deletion the sweep visits every name and removes
    every entry older than 24 hours. *)
Lemma forEachFile_exact (files : list string) (d : gmap string file) :
  NoDup files -> (forall f, f ∈ files -> is_Some (d !! f)) ->
  (forall f st, d !! f = Some st -> now - mtimeMs st > age24h ->
                isDirectory st = false) ->
  (forEachFile now files d).2 = false
  /\ forall p st, p ∈ files -> d !! p = Some st ->
                  now - mtimeMs st > age24h ->
                  (forEachFile now files d).1 !! p = None.
Proof.
  revert d. induction files as [|f files IH]; intros d Hnd Hall Hfiles; simpl.
  { split; [done|]. intros p st Hp. by apply elem_of_nil in Hp. }
  apply NoDup_cons in Hnd as [Hf Hnd].
  destruct (Hall f) as [stf Hstf]; [by left|]. rewrite Hstf.
  destruct (Z.gtb_spec (now - mtimeMs stf) age24h) as [Hold|Hyoung].
  - rewrite (Hfiles f stf Hstf) by lia.
    destruct (IH (delete f d)) as [Hflag Hdel]; [done| | |].
    { intros f' Hf'. rewrite lookup_delete_ne by (by intros ->).
      apply Hall. by right. }
    { intros f' st' [_ H]%lookup_delete_Some Ho. by eapply Hfiles. }
    split; [done|]. intros p st Hp Hst Hpold.
    apply elem_of_cons in Hp as [->|Hp].
    + apply forEachFile_lookup_None. apply lookup_delete_eq.
    + eapply Hdel; [done| |done]. rewrite lookup_delete_ne; [done|].
      by intros ->.
  - destruct (IH d) as [Hflag Hdel]; [done| |done|].
    { intros f' Hf'. apply Hall. by right. }
    split; [done|]. intros p st Hp Hst Hpold.
    apply elem_of_cons in Hp as [->|Hp]; [|by eapply Hdel].
    rewrite Hstf in Hst. injection Hst as ->. lia.
Qed.

Lemma throwsOn_lookup (d d' : gmap string file) (f : string) :
  d' !! f = d !! f -> throwsOn now d' f = throwsOn now d f.
Proof. unfold throwsOn. by intros ->. Qed.

(** Over names on which it does not throw, the sweep runs to the end and
    removes each of them that is older than 24 hours. *)
Lemma forEachFile_prefix (pre : list string) (d : gmap string file) :
  NoDup pre -> Forall (fun f => throwsOn now d f = false) pre ->
  (forEachFile now pre d).2 = false
  /\ forall p st, p ∈ pre -> d !! p = Some st ->
                  now - mtimeMs st > age24h ->
                  (forEachFile now pre d).1 !! p = None.
Proof.
  revert d. induction pre as [|f pre IH]; intros d Hnd Hpre; simpl.
  { split; [done|]. intros p st Hp. by apply elem_of_nil in Hp. }
  apply NoDup_cons in Hnd as [Hf Hnd].
  apply Forall_cons in Hpre as [Hthrows Hpre].
  unfold throwsOn in Hthrows.
  destruct (d !! f) as [stf|] eqn:Hstf; [|done].
  destruct (Z.gtb_spec (now - mtimeMs stf) age24h) as [Hold|Hyoung].
  - simpl in Hthrows. rewrite Hthrows.
    destruct (IH (delete f d)) as [Hflag Hdel]; [done| |].
    { apply Forall_forall. intros f' Hf'.
      rewrite (throwsOn_lookup d).
      - by apply (proj1 (Forall_forall _ _) Hpre).
      - apply lookup_delete_ne. by intros ->. }
    split; [done|]. intros p st Hp Hst Hpold.
    apply elem_of_cons in Hp as [->|Hp].
    + apply forEachFile_lookup_None. apply lookup_delete_eq.
    + eapply Hdel; [done| |done]. rewrite lookup_delete_ne; [done|].
      by intros ->.
  - destruct (IH d) as [Hflag Hdel]; [done|done|].
    split; [done|]. intros p st Hp Hst Hpold.
    apply elem_of_cons in Hp as [->|Hp]; [|by eapply Hdel].
    rewrite Hstf in Hst. injection Hst as ->. lia.
Qed.

(** The sweep stops at the first name it throws on: what it has done is
    what it does over the names listed before. *)
Lemma forEachFile_stops (pre rest : list string) (d : gmap string file) :
  NoDup (pre ++ rest) -> stopsAt now d pre rest ->
  forEachFile now (pre ++ rest) d = ((forEachFile now pre d).1, threw rest).
Proof.
  intros Hnd [Hpre Hrest].
  destruct (forEachFile_prefix pre d) as [Hflag _];
    [by apply NoDup_app in Hnd as (? & _)|done|].
  rewrite forEachFile_app, Hflag.
  destruct rest as [|f post]; [done|]. simpl.
  assert ((forEachFile now pre d).1 !! f = d !! f) as Hf.
  { apply forEachFile_untouched. intros Hin.
    apply NoDup_app in Hnd as (_ & Hdisj & _).
    apply (Hdisj f Hin). by left. }
  pose proof (throwsOn_lookup d _ f Hf) as Hsame.
  rewrite Hrest in Hsame. unfold throwsOn in Hsame.
  destruct ((forEachFile now pre d).1 !! f) as [stf|]; [|done].
  destruct (now - mtimeMs stf >? age24h); [|done].
  simpl in Hsame. by rewrite Hsame.
Qed.

(** Every listing splits where the sweep ends. *)
Lemma stopsAt_exists (files : list string) (d : gmap string file) :
  exists pre rest, files = pre ++ rest /\ stopsAt now d pre rest.
Proof.
  induction files as [|f files (pre & rest & -> & Hpre & Hrest)].
  { exists [], []. by repeat split. }
  destruct (throwsOn now d f) eqn:Hf.
  - exists [], (f :: pre ++ rest). by repeat split.
  - exists (f :: pre), rest. split; [done|]. split; [|done].
    by apply Forall_cons.
Qed.

(** C9, as the code has it. A sweep over a listing without repetitions
    goes through the names in order and ends at the first one on which
    [statSync] or [unlinkSync] throws, if there is one; every listing splits
    there.  Of the names listed before that one, the sweep removes exactly
    those older than 24 hours; the name it threw on, those listed after it
    and the ones not listed are left as they were; no entry that is at most
    24 hours old is ever removed or altered.  So a sweep over the names of
    the directory in which no entry older than 24 hours is a subdirectory
    removes exactly the entries older than 24 hours. *)
Theorem sweep_deletes_old_until_failure
    (files : list string) (w : world) :
  NoDup files ->
  (exists pre rest,
     files = pre ++ rest /\ stopsAt now (videosDir w) pre rest)
  /\ (forall pre rest,
        files = pre ++ rest -> stopsAt now (videosDir w) pre rest ->
        (forEachFile now files (videosDir w)).2 = threw rest
        /\ (forall p st,
              p ∈ pre -> videosDir w !! p = Some st ->
              now - mtimeMs st > age24h ->
              videosDir (cleanup now files w) !! p = None)
        /\ (forall p,
              p ∉ pre ->
              videosDir (cleanup now files w) !! p = videosDir w !! p)
        /\ (forall p st,
              videosDir w !! p = Some st -> now - mtimeMs st <= age24h ->
              videosDir (cleanup now files w) !! p = Some st))
  /\ (isListing files (videosDir w) ->
      (forall f st, videosDir w !! f = Some st ->
                    now - mtimeMs st > age24h -> isDirectory st = false) ->
      (forEachFile now files (videosDir w)).2 = false
      /\ forall p,
           videosDir (cleanup now files w) !! p
           = match videosDir w !! p with
             | Some st => if now - mtimeMs st >? age24h then None else Some st
             | None => None
             end).
Proof.
  intros Hnd. split; [apply stopsAt_exists|]. split.
  - intros pre rest -> Hstop. simpl.
    rewrite (forEachFile_stops pre rest (videosDir w) Hnd Hstop). simpl.
    split; [done|]. split; [|split].
    + intros p st Hp Hst Hold.
      destruct (forEachFile_prefix pre (videosDir w)) as [_ Hdel];
        [by apply NoDup_app in Hnd as (? & _)|apply Hstop|].
      by eapply Hdel.
    + intros p Hp. by apply forEachFile_untouched.
    + intros p st. apply forEachFile_young.
  - intros [_ Hlist] Hfiles.
    assert (stopsAt now (videosDir w) files []) as Hstop.
    { split; [|done]. apply Forall_forall. intros f Hf.
      apply Hlist in Hf as [st Hst]. unfold throwsOn. rewrite Hst.
      destruct (Z.gtb_spec (now - mtimeMs st) age24h) as [Hold|_]; [|done].
      simpl. apply (Hfiles f st Hst). lia. }
    pose proof (forEachFile_stops files [] (videosDir w)) as Hrun.
    rewrite app_nil_r in Hrun. specialize (Hrun Hnd Hstop).
    simpl. rewrite Hrun. simpl. split; [done|]. intros p.
    destruct (videosDir w !! p) as [st|] eqn:Hp.
    + destruct (Z.gtb_spec (now - mtimeMs st) age24h) as [Hold|Hyoung].
      * destruct (forEachFile_prefix files (videosDir w)) as [_ Hdel];
          [done|apply Hstop|].
        eapply Hdel; [|exact Hp|lia]. apply Hlist. by eexists.
      * by apply forEachFile_young.
    + by apply forEachFile_lookup_None.
Qed.

End Sweep.

Lemma staleVideos_listing :
  isListing ["old"; "c1_0min_100000.mp4"; "c1_0min_86400000.mp4"] staleVideos.
Proof.
  split.
  - apply (bool_decide_unpack _). by vm_compute.
  - intros f. rewrite <- elem_of_dom.
    replace (dom staleVideos)
      with (list_to_set (C := gset string)
              ["old"; "c1_0min_100000.mp4"; "c1_0min_86400000.mp4"]).
    + by rewrite elem_of_list_to_set.
    + apply (bool_decide_unpack _). by vm_compute.
Qed.

(** C9 (the claim fails here). The subdirectory [old] is listed first and
    cannot be unlinked; the exception ends the sweep, and the artifact that
    is 25 hours old is neither deleted nor looked at. *)
Lemma failed_deletion_ends_sweep :
  isListing ["old"; "c1_0min_100000.mp4"; "c1_0min_86400000.mp4"] staleVideos
  /\ 90000000 - mtimeMs (File 4096 0 false) > age24h
  /\ forEachFile 90000000
       ["old"; "c1_0min_100000.mp4"; "c1_0min_86400000.mp4"] staleVideos
     = (staleVideos, true)
  /\ staleVideos !! "c1_0min_100000.mp4" = Some (File 4096 0 false).
Proof.
  split; [apply staleVideos_listing|].
  split; [by vm_compute|split; by vm_compute].
Qed.

Lemma sweep_deletes_old_until_failure_witness :
  NoDup ["c1_0min_100000.mp4"; "old"; "c1_0min_86400000.mp4"]
  /\ stopsAt 90000000 (videosDir (store (boot staleVideos ∅ ∅)))
       ["c1_0min_100000.mp4"] ["old"; "c1_0min_86400000.mp4"]
  /\ (forEachFile 90000000
        ["c1_0min_100000.mp4"; "old"; "c1_0min_86400000.mp4"]
        (videosDir (store (boot staleVideos ∅ ∅)))).2
     = true
  /\ videosDir (cleanup 90000000
                  ["c1_0min_100000.mp4"; "old"; "c1_0min_86400000.mp4"]
                  (store (boot staleVideos ∅ ∅))) !! "c1_0min_100000.mp4"
     = None
  /\ videosDir (cleanup 90000000
                  ["c1_0min_100000.mp4"; "old"; "c1_0min_86400000.mp4"]
                  (store (boot staleVideos ∅ ∅))) !! "old"
     = Some (File 64 0 true)
  /\ videosDir (cleanup 90000000
                  ["c1_0min_100000.mp4"; "old"; "c1_0min_86400000.mp4"]
                  (store (boot staleVideos ∅ ∅))) !! "c1_0min_86400000.mp4"
     = Some (File 4096 86400000 false)
  /\ NoDup ["c1_0min_86400000.mp4"; "dangling"; "c1_0min_100000.mp4"]
  /\ stopsAt 90000000 (videosDir (store (boot staleVideos ∅ ∅)))
       ["c1_0min_86400000.mp4"] ["dangling"; "c1_0min_100000.mp4"]
  /\ videosDir (cleanup 90000000
                  ["c1_0min_86400000.mp4"; "dangling"; "c1_0min_100000.mp4"]
                  (store (boot staleVideos ∅ ∅))) !! "c1_0min_100000.mp4"
     = Some (File 4096 0 false).
Proof.
  assert (NoDup ["c1_0min_100000.mp4"; "old"; "c1_0min_86400000.mp4"]) as Hnd
    by (apply (bool_decide_unpack _); by vm_compute).
  assert (stopsAt 90000000 (videosDir (store (boot staleVideos ∅ ∅)))
            ["c1_0min_100000.mp4"] ["old"; "c1_0min_86400000.mp4"]) as Hstop.
  { split; [|by vm_compute]. apply Forall_cons. split; [by vm_compute|].
    apply Forall_nil_2. }
  assert (NoDup ["c1_0min_86400000.mp4"; "dangling"; "c1_0min_100000.mp4"])
    as Hnd' by (apply (bool_decide_unpack _); by vm_compute).
  assert (stopsAt 90000000 (videosDir (store (boot staleVideos ∅ ∅)))
            ["c1_0min_86400000.mp4"] ["dangling"; "c1_0min_100000.mp4"])
    as Hstop'.
  { split; [|by vm_compute]. apply Forall_cons. split; [by vm_compute|].
    apply Forall_nil_2. }
  destruct (sweep_deletes_old_until_failure 90000000
              ["c1_0min_100000.mp4"; "old"; "c1_0min_86400000.mp4"]
              (store (boot staleVideos ∅ ∅)) Hnd) as (_ & Hsplit & _).
  destruct (Hsplit ["c1_0min_100000.mp4"] ["old"; "c1_0min_86400000.mp4"]
              eq_refl Hstop) as (Hflag & Hdel & Hkeep & Hyoung).
  destruct (sweep_deletes_old_until_failure 90000000
              ["c1_0min_86400000.mp4"; "dangling"; "c1_0min_100000.mp4"]
              (store (boot staleVideos ∅ ∅)) Hnd') as (_ & Hsplit' & _).
  destruct (Hsplit' ["c1_0min_86400000.mp4"] ["dangling"; "c1_0min_100000.mp4"]
              eq_refl Hstop') as (_ & _ & Hkeep' & _).
  split; [exact Hnd|]. split; [exact Hstop|]. split; [exact Hflag|].
  split.
  { apply (Hdel "c1_0min_100000.mp4" (File 4096 0 false)).
    - by apply list_elem_of_singleton.
    - by vm_compute.
    - by vm_compute. }
  split.
  { rewrite (Hkeep "old").
    - by vm_compute.
    - intros Hin%list_elem_of_singleton. done. }
  split.
  { apply Hyoung; by vm_compute. }
  split; [exact Hnd'|]. split; [exact Hstop'|].
  rewrite (Hkeep' "c1_0min_100000.mp4").
  - by vm_compute.
  - intros Hin%list_elem_of_singleton. done.
Defined.


(** ** Placeholder media *)

Section Placeholders.

(** Where the loop stops, and what it has spawned by then. *)
Lemma clipLoop_media (vid : string) (d : Z) (rel rest : list clip)
    (lc : list listEntry) (w : world) :
  let r := clipLoop vid d rel rest lc w in
  clipsDir r.1 = clipsDir w
  /\ ((exists c rest' lc',
         r.2 = AwaitClip vid d rel c rest' lc'
         /\ clipsDir w !! clipVideoPath c = None
         /\ spawned r.1 = spawned w ++ [FfmpegLavfi (clipVideoPath c) d])
      \/ (exists lc',
            r.2 = AwaitEncoder vid d rel lc'
            /\ spawned r.1
               = spawned w ++ [FfmpegConcat (listFile vid) (videoPath vid)])).
Proof.
  revert lc. induction rest as [|c rest IH]; intros lc; simpl.
  - split; [done|]. right. by exists lc.
  - destruct (existsSync (clipsDir w) (clipVideoPath c)) eqn:Ex.
    + apply IH.
    + simpl. split; [done|]. left. exists c, rest, lc.
      split; [done|]. split; [|done]. by apply existsSync_false.
Qed.

Lemma lavfiOutputs_snoc (ps : list proc) (p : proc) :
  lavfiOutputs (ps ++ [p]) = lavfiOutputs ps ++ option_list (lavfiOutput p).
Proof.
  unfold lavfiOutputs. rewrite omap_app. simpl. by destruct (lavfiOutput p).
Qed.

Lemma elem_of_lavfiOutputs (ps : list proc) (p : string) :
  p ∈ lavfiOutputs ps <-> exists d, FfmpegLavfi p d ∈ ps.
Proof.
  unfold lavfiOutputs. rewrite list_elem_of_omap. split.
  - intros ([l v|o d] & Hin & Hout); simpl in Hout; [done|].
    injection Hout as ->. by exists d.
  - intros [d Hd]. by exists (FfmpegLavfi p d).
Qed.

Lemma pendingClips_snoc (ts : list task) (t : task) :
  pendingClips (ts ++ [t]) = pendingClips ts ++ option_list (pendingOf t).
Proof.
  unfold pendingClips. rewrite omap_app. simpl. by destruct (pendingOf t).
Qed.

Lemma pendingClips_split (ts : list task) (i : nat) (t : task) :
  ts !! i = Some t ->
  pendingClips ts
  = pendingClips (take i ts) ++ option_list (pendingOf t)
      ++ pendingClips (drop (S i) ts).
Proof.
  intros Hi. rewrite <- (take_drop_middle ts i t Hi) at 1.
  unfold pendingClips. rewrite omap_app. simpl. by destruct (pendingOf t).
Qed.

Lemma pendingClips_insert (ts : list task) (i : nat) (t t' : task) :
  ts !! i = Some t ->
  pendingClips (<[i := t']> ts)
  = pendingClips (take i ts) ++ option_list (pendingOf t')
      ++ pendingClips (drop (S i) ts).
Proof.
  intros Hi. pose proof (lookup_lt_Some _ _ _ Hi) as Hlt.
  rewrite (pendingClips_split (<[i := t']> ts) i t')
    by (by apply list_lookup_insert_eq).
  rewrite take_insert_ge by lia. rewrite drop_insert_lt by lia. done.
Qed.

Lemma pendingClips_insert_idle (ts : list task) (i : nat) (t t' : task) :
  ts !! i = Some t -> pendingOf t = None -> pendingOf t' = None ->
  pendingClips (<[i := t']> ts) = pendingClips ts.
Proof.
  intros Hi Ht Ht'.
  rewrite (pendingClips_insert ts i t t' Hi), (pendingClips_split ts i t Hi).
  by rewrite Ht, Ht'.
Qed.

(** The state in which a loop starts or resumes: nothing pending, and all
    that was synthesized is on disk. *)
Lemma serial_of_loop (vid : string) (d : Z) (rel rest : list clip)
    (lc : list listEntry) (w : world) (ts : list task) :
  NoDup (lavfiOutputs (spawned w)) ->
  (forall p d', FfmpegLavfi p d' ∈ spawned w -> clipsDir w !! p = Some d') ->
  pendingClips ts = option_list (pendingOf (clipLoop vid d rel rest lc w).2) ->
  serial (System (clipLoop vid d rel rest lc w).1 ts).
Proof.
  intros Hnd Hdisk Hpend.
  destruct (clipLoop_media vid d rel rest lc w) as [Hclips Hr].
  unfold serial. simpl. rewrite Hpend, Hclips.
  destruct Hr as [(c & rest' & lc' & -> & Hnone & ->)|(lc' & -> & ->)]; simpl.
  - split.
    { rewrite lavfiOutputs_snoc. simpl. apply NoDup_app. split; [done|].
      split; [|apply NoDup_singleton].
      intros p [d' Hd']%elem_of_lavfiOutputs ->%list_elem_of_singleton.
      apply Hdisk in Hd'. congruence. }
    split; [lia|]. split.
    + intros p d' [= -> ->]%list_elem_of_singleton. split; [done|].
      apply elem_of_app. right. by apply list_elem_of_singleton.
    + intros p d' [Hin|[= -> ->]%list_elem_of_singleton]%elem_of_app.
      * left. by apply Hdisk.
      * right. by apply list_elem_of_singleton.
  - split.
    { rewrite lavfiOutputs_snoc. simpl. by rewrite app_nil_r. }
    split; [lia|]. split.
    + intros p d' Hin. by apply elem_of_nil in Hin.
    + intros p d' [Hin|Hin%list_elem_of_singleton]%elem_of_app; [|done].
      left. by apply Hdisk.
Qed.

Lemma serial_same (w' : world) (ts' : list task) (s : system) :
  spawned w' = spawned (store s) -> clipsDir w' = clipsDir (store s) ->
  pendingClips ts' = pendingClips (tasks s) ->
  serial s -> serial (System w' ts').
Proof. unfold serial. simpl. by intros -> -> ->. Qed.

(** A request either touches neither processes nor media, or enters the
    loop from a store with the same processes and media. *)
Lemma generateRecapVideo_outcome (channelId : string)
    (minutesLate now0 now1 : Z) (w : world) :
  let r := generateRecapVideo channelId minutesLate now0 now1 w in
  (spawned r.1 = spawned w /\ clipsDir r.1 = clipsDir w
   /\ pendingOf r.2 = None)
  \/ (exists vid d rel w1,
        r = clipLoop vid d rel rel [] w1
        /\ spawned w1 = spawned w /\ clipsDir w1 = clipsDir w).
Proof.
  unfold generateRecapVideo.
  destruct (existsSync _ _); [by left|].
  destruct (bool_decide (_ ∈ _)); [by left|]. simpl.
  destruct (bool_decide (length _ = 0%nat)); [by left|].
  destruct (selectClips _ _ _) as [rel|]; [|by left].
  destruct (bool_decide (length rel = 0%nat)); [by left|].
  right. by eexists _, _, _, _.
Qed.

Lemma serial_step (s : system) (e : event) :
  serial s ->
  match e with
  | Request _ _ _ _ => pendingClips (tasks s) = []
  | _ => True
  end ->
  serial (step s e)
  /\ forall p d, clipsDir (store s) !! p = Some d ->
                 clipsDir (store (step s e)) !! p = Some d.
Proof.
  intros Hs Hguard. pose proof Hs as (Hnd & Hone & Hpend & Hdisk).
  destruct e; simpl.
  - (* a request *)
    destruct (generateRecapVideo_outcome channelId minutesLate now0 now1 (store s))
      as [(Hsp & Hcl & Hidle)|(vid & d & rel & w1 & Hr & Hsp & Hcl)].
    + destruct (generateRecapVideo _ _ _ _ _) as [w' t]. simpl in *.
      split; [|by rewrite Hcl].
      apply (serial_same _ _ s); try done.
      by rewrite pendingClips_snoc, Hidle, app_nil_r.
    + rewrite Hr.
      destruct (clipLoop vid d rel rel [] w1) as [w' t] eqn:El. simpl.
      pose proof (clipLoop_media vid d rel rel [] w1) as [Hcl' _].
      rewrite El in Hcl'. simpl in Hcl'. split; [|by rewrite Hcl', Hcl].
      change w' with (w', t).1. rewrite <- El. apply serial_of_loop.
      * by rewrite Hsp.
      * intros p d' Hin. rewrite Hsp in Hin. rewrite Hcl.
        destruct (Hdisk p d' Hin) as [?|Hp]; [done|].
        rewrite Hguard in Hp. by apply elem_of_nil in Hp.
      * rewrite El. simpl. by rewrite pendingClips_snoc, Hguard.
  - (* a placeholder is done *)
    at_task s i t Hi.
    destruct t as [|vid d rel c rest lc| | |]; simpl;
      try (rewrite list_insert_id by done; by destruct s).
    pose proof (pendingClips_split _ _ _ Hi) as Hsplit. simpl in Hsplit.
    assert (pendingClips (take i (tasks s)) = []
            /\ pendingClips (drop (S i) (tasks s)) = []) as [Hpre Hpost].
    { rewrite Hsplit, length_app in Hone. simpl in Hone.
      destruct (pendingClips (take i (tasks s))); [|simpl in Hone; lia].
      destruct (pendingClips (drop (S i) (tasks s))); [done|simpl in Hone; lia]. }
    rewrite Hpre, Hpost in Hsplit. simpl in Hsplit.
    destruct (Hpend (clipVideoPath c) d) as [Hnone _].
    { rewrite Hsplit. by apply list_elem_of_singleton. }
    set (w1 := set_clipsDir _ _).
    pose proof (clipLoop_media vid d rel rest
                  (lc ++ [ListEntry (clipVideoPath c) d]) w1) as [Hcl' _].
    split.
    + apply serial_of_loop.
      * done.
      * intros p d' Hin. simpl.
        destruct (Hdisk p d' Hin) as [Hp|Hp].
        -- rewrite lookup_insert_ne; [done|]. intros <-. congruence.
        -- rewrite Hsplit in Hp.
           apply list_elem_of_singleton in Hp. injection Hp as -> ->.
           apply lookup_insert_eq.
      * rewrite (pendingClips_insert _ _ _ _ Hi), Hpre, Hpost.
        simpl. by rewrite app_nil_r.
    + intros p d' Hp. rewrite Hcl'. simpl.
      rewrite lookup_insert_ne; [done|]. intros <-. congruence.
  - (* the encoder is done *)
    at_task s i t Hi.
    destruct t as [| |vid d rel lc| |]; simpl;
      try (rewrite list_insert_id by done; by destruct s).
    assert (pendingOf (onEncoderClose code out (AwaitEncoder vid d rel lc)
                         (store s)).2 = None
            /\ spawned (onEncoderClose code out (AwaitEncoder vid d rel lc)
                          (store s)).1 = spawned (store s)
            /\ clipsDir (onEncoderClose code out (AwaitEncoder vid d rel lc)
                           (store s)).1 = clipsDir (store s))
      as (Hidle & Hsp & Hcl).
    { simpl. destruct (bool_decide (code = 0)).
      - destruct out; simpl; by destruct (_ !! videoPath vid).
      - by destruct out. }
    simpl in Hidle, Hsp, Hcl. split; [|by rewrite Hcl].
    apply (serial_same _ _ s); try done.
    by apply (pendingClips_insert_idle _ _ _ _ Hi).
  - (* a tick *)
    at_task s i t Hi. simpl. split; [|done].
    apply (serial_same _ _ s); try done.
    destruct t; simpl; try (by rewrite list_insert_id).
    apply (pendingClips_insert_idle _ _ _ _ Hi); [done|].
    by destruct (_ && _).
  - split; [|done]. by apply (serial_same _ _ s).
  - split; [|done]. by apply (serial_same _ _ s).
  - unfold categoryChange.
    destruct (streams (store s) !! channelId);
      (split; [|done]); [by apply (serial_same _ _ s)|by destruct s].
  - split; [|done]. by apply (serial_same _ _ s).
Qed.

Lemma serial_run (s : system) (es : list event) :
  serial s -> unhurried s es ->
  serial (run s es)
  /\ forall p d, clipsDir (store s) !! p = Some d ->
                 clipsDir (store (run s es)) !! p = Some d.
Proof.
  revert s. induction es as [|e es IH]; intros s Hs Hun; [done|].
  destruct Hun as [Hguard Hun].
  destruct (serial_step s e Hs Hguard) as [Hs' Hkeep].
  destruct (IH (step s e) Hs' Hun) as [Hs'' Hkeep'].
  split; [done|]. intros p d Hp. by apply Hkeep', Hkeep.
Qed.

Lemma unhurried_app (s : system) (es1 es2 : list event) :
  unhurried s (es1 ++ es2) ->
  unhurried s es1 /\ unhurried (run s es1) es2.
Proof.
  revert s. induction es1 as [|e es1 IH]; intros s; simpl; [done|].
  intros [Hguard Hun]. destruct (IH _ Hun) as [H1 H2]. by repeat split.
Qed.

Lemma serial_boot (videos : gmap string file) (media : gmap string Z)
    (temp : gmap string string) :
  serial (boot videos media temp).
Proof.
  unfold serial. simpl. split; [constructor|]. split; [lia|].
  split; intros p d Hin; by apply elem_of_nil in Hin.
Qed.




End Placeholders.

(* ===================================================================== *)
(** * Further properties of the code *)
(* ===================================================================== *)

(** ** The webhook's signature check *)

Section EventSubFacts.

Variable hmacSha256Hex : string -> string -> string.
Variable dateGetTime : string -> option Z.

Lemma falsy_Some (v : string) : falsy (Some v) = false <-> v <> "".
Proof.
  simpl. split.
  - by intros H%bool_decide_eq_false.
  - intros H. by apply bool_decide_eq_false.
Qed.

(** X1. The check never looks at what the signature says: two non-empty
    signatures of the same length get the same verdict, whatever the
    secret, the headers, the body and the clock. *)
Theorem signature_content_is_not_checked
    (secret messageId messageTimestamp : option string)
    (sig sig' body : string) (now : Z) :
  sig <> "" -> sig' <> "" ->
  String.length sig = String.length sig' ->
  validateEventSubSignature hmacSha256Hex dateGetTime secret messageId
    messageTimestamp (Some sig) body now
  = validateEventSubSignature hmacSha256Hex dateGetTime secret messageId
      messageTimestamp (Some sig') body now.
Proof.
  intros Hs Hs' Hlen. unfold validateEventSubSignature.
  destruct secret as [key|]; [|done].
  destruct (bool_decide (key = "")); [done|].
  destruct messageId as [mid|]; [|done].
  destruct messageTimestamp as [ts|]; [|done].
  rewrite (proj2 (falsy_Some sig) Hs), (proj2 (falsy_Some sig') Hs').
  by rewrite Hlen.
Qed.

(** X2. The age test compares whole seconds: a message whose timestamp is
    within 600 000 ms of the clock is never too old, one that is 601 000 ms
    or more away always is, and one whose timestamp does not parse is
    never too old. *)
Theorem age_test_bounds (now : Z) (messageTimestamp : string) :
  (forall ms, dateGetTime messageTimestamp = Some ms ->
     (Z.abs (now - ms) <= 600000 -> tooOld dateGetTime now messageTimestamp = false)
     /\ (601000 <= Z.abs (now - ms) ->
         tooOld dateGetTime now messageTimestamp = true))
  /\ (dateGetTime messageTimestamp = None ->
      tooOld dateGetTime now messageTimestamp = false).
Proof.
  unfold tooOld. split.
  - intros ms ->.
    pose proof (Z.div_mod now 1000 ltac:(lia)) as Hn.
    pose proof (Z.mod_pos_bound now 1000 ltac:(lia)) as Hnb.
    pose proof (Z.div_mod ms 1000 ltac:(lia)) as Hm.
    pose proof (Z.mod_pos_bound ms 1000 ltac:(lia)) as Hmb.
    split; intros H.
    + rewrite Z.gtb_ltb. apply Z.ltb_ge. lia.
    + rewrite Z.gtb_ltb. apply Z.ltb_lt. lia.
  - by intros ->.
Qed.

End EventSubFacts.

Lemma signature_content_is_not_checked_witness :
  "sha256=0000" <> "" /\ "sha256=ffff" <> ""
  /\ String.length "sha256=0000" = String.length "sha256=ffff"
  /\ validateEventSubSignature (fun _ _ => "0000") (fun _ => Some 5000)
       (Some "secret") (Some "id-1") (Some "1970-01-01T00:00:05Z")
       (Some "sha256=0000") "{}" 9000
     = validateEventSubSignature (fun _ _ => "0000") (fun _ => Some 5000)
         (Some "secret") (Some "id-1") (Some "1970-01-01T00:00:05Z")
         (Some "sha256=ffff") "{}" 9000.
Proof.
  assert ("sha256=0000" <> "") as H1 by done.
  assert ("sha256=ffff" <> "") as H2 by done.
  assert (String.length "sha256=0000" = String.length "sha256=ffff") as H3
    by done.
  split; [exact H1|]. split; [exact H2|]. split; [exact H3|].
  exact (signature_content_is_not_checked (fun _ _ => "0000")
           (fun _ => Some 5000) (Some "secret") (Some "id-1")
           (Some "1970-01-01T00:00:05Z") "sha256=0000" "sha256=ffff" "{}" 9000
           H1 H2 H3).
Defined.

(** ** The clip registry *)

Section Registry.

Lemma generateRecapVideo_registry (channelId : string)
    (minutesLate now0 now1 : Z) (w : world) :
  streams (generateRecapVideo channelId minutesLate now0 now1 w).1 = streams w
  /\ clips (generateRecapVideo channelId minutesLate now0 now1 w).1 = clips w.
Proof.
  unfold generateRecapVideo.
  destruct (existsSync _ _); [done|].
  destruct (bool_decide (_ ∈ _)); [done|]. simpl.
  destruct (bool_decide (length _ = 0%nat)); [done|].
  destruct (selectClips _ _ _) as [rel|]; [|done].
  destruct (bool_decide (length rel = 0%nat)); [done|].
  by destruct (clipLoop_spec (videoId channelId minutesLate now0)
                 (durationPerClip (length rel)) rel rel []
                 (set_generating
                    ({[videoId channelId minutesLate now0]}
                       ∪ generatingVideos w) w)) as (? & ? & _).
Qed.

(** The recap engine reads the registry and never writes it. *)
Lemma engine_keeps_registry (s : system) (e : event) :
  registryEvent e = false ->
  streams (store (step s e)) = streams (store s)
  /\ clips (store (step s e)) = clips (store s).
Proof.
  destruct e; try done; intros _; simpl.
  - pose proof (generateRecapVideo_registry channelId minutesLate now0 now1
                  (store s)) as H.
    by destruct (generateRecapVideo _ _ _ _ _).
  - destruct (tasks s !! i) as [t|] eqn:Hi; [|by rewrite withTask_none].
    rewrite (withTask_unfold _ _ _ _ Hi).
    destruct t as [|vid d rel c rest lc| | |]; try done. simpl.
    by destruct (clipLoop_spec vid d rel rest
                   (lc ++ [ListEntry (clipVideoPath c) d])
                   (set_clipsDir (<[clipVideoPath c := d]> (clipsDir (store s)))
                      (store s))) as (? & ? & _).
  - destruct (tasks s !! i) as [t|] eqn:Hi; [|by rewrite withTask_none].
    rewrite (withTask_unfold _ _ _ _ Hi).
    destruct t as [| |vid d rel lc| |]; try done. simpl.
    destruct (bool_decide (code = 0)).
    + destruct out; simpl; by destruct (_ !! videoPath vid).
    + by destruct out.
  - destruct (tasks s !! i) as [t|] eqn:Hi; [|by rewrite withTask_none].
    by rewrite (withTask_unfold _ _ _ _ Hi).
Qed.

Lemma createClip_prefix (channelId uuid : string) (now : Z)
    (category title : string) (startTime endTime : jsTime)
    (cs : gmap string (list clip)) (ch : string) (l : list clip) :
  cs !! ch = Some l ->
  exists l',
    (createClip channelId uuid now category title startTime endTime cs).1 !! ch
    = Some (l ++ l').
Proof.
  intros Hl. unfold createClip. simpl.
  destruct (decide (channelId = ch)) as [->|Hne].
  - rewrite lookup_insert_eq, Hl. by eexists.
  - rewrite lookup_insert_ne by done. exists []. by rewrite app_nil_r.
Qed.

Lemma step_clips_prefix (s : system) (e : event) (ch : string)
    (l : list clip) :
  clips (store s) !! ch = Some l ->
  exists l', clips (store (step s e)) !! ch = Some (l ++ l').
Proof.
  intros Hl.
  destruct (registryEvent e) eqn:He.
  2:{ destruct (engine_keeps_registry s e He) as [_ ->].
      exists []. by rewrite app_nil_r. }
  destruct e; try done; simpl.
  - exists []. by rewrite app_nil_r.
  - unfold categoryChange. destruct (streams (store s) !! channelId).
    + by apply createClip_prefix.
    + exists []. by rewrite app_nil_r.
  - by apply createClip_prefix.
Qed.

Lemma run_clips_prefix (s : system) (es : list event) (ch : string)
    (l : list clip) :
  clips (store s) !! ch = Some l ->
  exists l', clips (store (run s es)) !! ch = Some (l ++ l').
Proof.
  revert s l. induction es as [|e es IH]; intros s l Hl.
  { exists []. by rewrite app_nil_r. }
  destruct (step_clips_prefix s e ch l Hl) as [l1 H1].
  destruct (IH (step s e) _ H1) as [l2 H2].
  exists (l1 ++ l2). by rewrite app_assoc.
Qed.

(** X3. Clips are append-only: whatever happens, the clips a channel has
    stay where they are in its list, which can only grow at the end. *)
Theorem clips_are_append_only (s : system) (es : list event) (ch : string)
    (l : list clip) :
  clips (store s) !! ch = Some l ->
  exists l', clips (store (run s es)) !! ch = Some (l ++ l').
Proof. apply run_clips_prefix. Qed.

Lemma clips_are_append_only_witness :
  clips (store twoClips) !! "c1" = Some [clipA; clipB]
  /\ exists l',
       clips (store (run twoClips
                       [Request "c1" 0 100000 100000; ClipClose 0;
                        PostClip "c1" "c" 0 "Game" "three" None None]))
         !! "c1"
       = Some ([clipA; clipB] ++ l').
Proof.
  assert (clips (store twoClips) !! "c1" = Some [clipA; clipB]) as H
    by (by vm_compute).
  split; [exact H|].
  exact (clips_are_append_only twoClips
           [Request "c1" 0 100000 100000; ClipClose 0;
            PostClip "c1" "c" 0 "Game" "three" None None] "c1" _ H).
Defined.

(** The filter throws exactly when a clip holds a number. *)
Lemma filterClips_None (cutoffTime : Z) (l : list clip) :
  filterClips (beforeCutoff cutoffTime) l = None <-> Exists hasNumber l.
Proof.
  induction l as [|c l IH]; simpl.
  - split; [done|]. by intros H%Exists_nil.
  - rewrite Exists_cons. unfold beforeCutoff at 1, hasNumber at 1.
    destruct (startTime c) as [[ms|]|ms] eqn:Hc.
    + destruct (filterClips _ l).
      * split; [done|]. intros [[? ?]|H]; [done|]. by apply IH in H.
      * split; [|done]. intros _. right. by apply IH.
    + destruct (filterClips _ l).
      * split; [done|]. intros [[? ?]|H]; [done|]. by apply IH in H.
      * split; [|done]. intros _. right. by apply IH.
    + split; [|done]. intros _. left. by eexists.
Qed.

Lemma selectClips_None_of_number (streamClips : list clip)
    (minutesLate now : Z) :
  Exists hasNumber streamClips ->
  selectClips streamClips minutesLate now = None.
Proof.
  intros H. unfold selectClips.
  by rewrite (proj2 (filterClips_None (now - minutesLate * 60000) streamClips) H).
Qed.

(** X4. The selection throws exactly when some clip of the channel holds a
    number as its start time, whatever [minutesLate] and the clock. *)
Theorem selection_throws_iff_number (streamClips : list clip)
    (minutesLate now : Z) :
  selectClips streamClips minutesLate now = None
  <-> Exists hasNumber streamClips.
Proof.
  unfold selectClips. rewrite <- (filterClips_None (now - minutesLate * 60000)).
  by destruct (filterClips _ streamClips).
Qed.

Lemma categoryChange_clips (w : world) (ch : string)
    (oldCategory : option string) (newCategory uuid : string) (now : Z)
    (st : stream) :
  streams w !! ch = Some st ->
  getClips ch (categoryChange ch oldCategory newCategory uuid now w)
  = getClips ch w
      ++ [Clip uuid (orElse oldCategory "Stream") (orElse oldCategory "Segment")
            (NumberMs (lastSegmentStart st)) (NumberMs now) now false]
  /\ streams (categoryChange ch oldCategory newCategory uuid now w) !! ch
     = Some (Stream (stream_startTime st) newCategory now (stream_clips st)
               (stream_endTime st)).
Proof.
  intros Hst. unfold categoryChange, getClips. rewrite Hst. simpl.
  by rewrite !lookup_insert_eq.
Qed.

(** X5. Once the category-change webhook has cut a clip on a started
    stream, the selection throws for that channel in every later state,
    whatever [minutesLate] and the clock: clips are never removed, and the
    cut clip holds numbers. *)
Theorem category_change_poisons_recaps
    (s : system) (ch : string) (oldCategory : option string)
    (newCategory uuid : string) (t : Z) (es : list event) (st : stream) :
  streams (store s) !! ch = Some st ->
  forall minutesLate now,
    selectClips
      (getClips ch
         (store (run (step s (CategoryChange ch oldCategory newCategory uuid t))
                     es)))
      minutesLate now
    = None.
Proof.
  intros Hst minutesLate now.
  destruct (categoryChange_clips (store s) ch oldCategory newCategory uuid t st
              Hst) as [Hclips _].
  unfold getClips in Hclips.
  set (s1 := step s (CategoryChange ch oldCategory newCategory uuid t)).
  assert (exists l, clips (store s1) !! ch = Some l
                    /\ Exists hasNumber l) as (l & Hl & Hnum).
  { subst s1. simpl in *.
    destruct (clips (categoryChange ch oldCategory newCategory uuid t (store s))
                !! ch) as [l|] eqn:El; simpl in Hclips.
    - exists l. split; [done|]. rewrite Hclips.
      apply Exists_app. right. apply Exists_cons_hd. by eexists.
    - by destruct (default [] (clips (store s) !! ch)). }
  destruct (run_clips_prefix s1 es ch l Hl) as [l' Hl'].
  unfold getClips. rewrite Hl'. simpl.
  apply selectClips_None_of_number. apply Exists_app. by left.
Qed.

Lemma category_change_poisons_recaps_witness :
  streams (store (run (boot ∅ ∅ ∅) [StreamStart "c1" 1000])) !! "c1"
  = Some (Stream 1000 "Stream" 1000 [] None)
  /\ selectClips
       (getClips "c1"
          (store (run (step (run (boot ∅ ∅ ∅) [StreamStart "c1" 1000])
                            (CategoryChange "c1" (Some "Chat") "Game" "u1" 5000))
                      [PostClip "c1" "a" 0 "Chat" "one" (Some 50000) (Some 55000);
                       Request "c1" 0 100000 100000])))
       0 100000
     = None.
Proof.
  assert (streams (store (run (boot ∅ ∅ ∅) [StreamStart "c1" 1000])) !! "c1"
          = Some (Stream 1000 "Stream" 1000 [] None)) as H by (by vm_compute).
  split; [exact H|].
  exact (category_change_poisons_recaps _ "c1" (Some "Chat") "Game" "u1" 5000
           [PostClip "c1" "a" 0 "Chat" "one" (Some 50000) (Some 55000);
            Request "c1" 0 100000 100000] _ H 0 100000).
Defined.

(** X6. Two category changes in a row on a started stream cut two clips
    that tile the stream: the first runs from the start of the segment to
    the first change, the second from the first change to the second. *)
Theorem category_segments_are_contiguous
    (w : world) (ch : string) (st : stream)
    (old1 old2 : option string) (new1 new2 uuid1 uuid2 : string) (t1 t2 : Z) :
  streams w !! ch = Some st ->
  getClips ch (categoryChange ch old2 new2 uuid2 t2
                 (categoryChange ch old1 new1 uuid1 t1 w))
  = getClips ch w
      ++ [Clip uuid1 (orElse old1 "Stream") (orElse old1 "Segment")
            (NumberMs (lastSegmentStart st)) (NumberMs t1) t1 false;
          Clip uuid2 (orElse old2 "Stream") (orElse old2 "Segment")
            (NumberMs t1) (NumberMs t2) t2 false].
Proof.
  intros Hst.
  destruct (categoryChange_clips w ch old1 new1 uuid1 t1 st Hst) as [H1 Hst1].
  destruct (categoryChange_clips _ ch old2 new2 uuid2 t2 _ Hst1) as [H2 _].
  rewrite H2, H1. simpl. by rewrite <- app_assoc.
Qed.

Lemma category_segments_are_contiguous_witness :
  streams (store (run (boot ∅ ∅ ∅) [StreamStart "c1" 1000])) !! "c1"
  = Some (Stream 1000 "Stream" 1000 [] None)
  /\ getClips "c1"
       (categoryChange "c1" (Some "Chat") "Game" "u2" 9000
          (categoryChange "c1" None "Chat" "u1" 5000
             (store (run (boot ∅ ∅ ∅) [StreamStart "c1" 1000]))))
     = [Clip "u1" "Stream" "Segment" (NumberMs 1000) (NumberMs 5000) 5000 false;
        Clip "u2" "Chat" "Chat" (NumberMs 5000) (NumberMs 9000) 9000 false].
Proof.
  assert (streams (store (run (boot ∅ ∅ ∅) [StreamStart "c1" 1000])) !! "c1"
          = Some (Stream 1000 "Stream" 1000 [] None)) as H by (by vm_compute).
  split; [exact H|].
  exact (category_segments_are_contiguous _ "c1" _ None (Some "Chat")
           "Chat" "Game" "u1" "u2" 5000 9000 H).
Defined.

Lemma streams_ok_step (s : system) (e : event) :
  streams_ok (store s) -> streams_ok (store (step s e)).
Proof.
  intros Hok.
  destruct (registryEvent e) eqn:He.
  2:{ destruct (engine_keeps_registry s e He) as [Hs Hc].
      unfold streams_ok, getClips. rewrite Hs, Hc. exact Hok. }
  destruct e; try done; simpl; intros ch st.
  - (* a stream starts *)
    unfold streamStart, getClips. simpl.
    destruct (decide (channelId = ch)) as [->|Hne].
    + rewrite lookup_insert_eq. intros [= <-]. simpl.
      split; [apply sublist_nil_l|constructor].
    + rewrite lookup_insert_ne by done. apply Hok.
  - (* the category changes *)
    unfold categoryChange.
    destruct (streams (store s) !! channelId) as [st0|] eqn:Hst0; [|apply Hok].
    unfold getClips. simpl.
    destruct (decide (channelId = ch)) as [->|Hne].
    + rewrite !lookup_insert_eq. intros [= <-]. simpl.
      destruct (Hok ch st0 Hst0) as [Hsub Hdates]. split; [|done].
      by apply sublist_inserts_r.
    + rewrite !lookup_insert_ne by done. apply Hok.
  - (* a clip is posted *)
    unfold postClip, getClips. simpl.
    destruct (streams (store s) !! channelId) as [st0|] eqn:Hst0.
    + destruct (decide (channelId = ch)) as [->|Hne].
      * rewrite !lookup_insert_eq. intros [= <-]. simpl.
        destruct (Hok ch st0 Hst0) as [Hsub Hdates]. split.
        -- by apply sublist_app.
        -- apply Forall_app. split; [done|]. repeat constructor. by eexists.
      * rewrite !lookup_insert_ne by done. apply Hok.
    + destruct (decide (channelId = ch)) as [->|Hne].
      * by rewrite Hst0.
      * rewrite lookup_insert_ne by done. apply Hok.
Qed.

Lemma streams_ok_reachable (s : system) : reachable s -> streams_ok (store s).
Proof.
  intros (videos & media & temp & es & ->).
  induction es as [|e es IH] using rev_ind.
  - intros ch st Hst. simpl in Hst. by rewrite lookup_empty in Hst.
  - rewrite run_app. by apply streams_ok_step.
Qed.

(** X7. In every state the server reaches, the clips a started stream
    counts (the [clipsCount] of its info) are clips of its channel, in the
    order of the channel's list, all made by [POST /clip] with dates as
    times: the count never exceeds the number of clips of the channel, and
    leaves out the clips cut by the webhook. *)
Theorem stream_counts_posted_clips (s : system) (ch : string) (st : stream) :
  reachable s ->
  streams (store s) !! ch = Some st ->
  streamInfo ch (store s)
  = Ok (StreamInfoBody ch (stream_startTime st) (currentCategory st)
          (length (stream_clips st)))
  /\ stream_clips st `sublist_of` getClips ch (store s)
  /\ Forall (fun c => exists o, startTime c = DateObj o) (stream_clips st)
  /\ (length (stream_clips st) <= length (getClips ch (store s)))%nat.
Proof.
  intros Hr Hst. destruct (streams_ok_reachable s Hr ch st Hst) as [Hsub Hd].
  split; [unfold streamInfo; by rewrite Hst|].
  split; [done|]. split; [done|]. by apply sublist_length.
Qed.

Lemma stream_counts_posted_clips_witness :
  reachable
    (run (boot ∅ ∅ ∅)
       [StreamStart "c1" 1000;
        PostClip "c1" "a" 2000 "Chat" "one" (Some 1000) (Some 2000);
        CategoryChange "c1" (Some "Chat") "Game" "u1" 5000])
  /\ streamInfo "c1"
       (store (run (boot ∅ ∅ ∅)
                 [StreamStart "c1" 1000;
                  PostClip "c1" "a" 2000 "Chat" "one" (Some 1000) (Some 2000);
                  CategoryChange "c1" (Some "Chat") "Game" "u1" 5000]))
     = Ok (StreamInfoBody "c1" 1000 "Game" 1)
  /\ length (getClips "c1"
               (store (run (boot ∅ ∅ ∅)
                         [StreamStart "c1" 1000;
                          PostClip "c1" "a" 2000 "Chat" "one" (Some 1000)
                            (Some 2000);
                          CategoryChange "c1" (Some "Chat") "Game" "u1" 5000])))
     = 2%nat.
Proof.
  assert (reachable
            (run (boot ∅ ∅ ∅)
               [StreamStart "c1" 1000;
                PostClip "c1" "a" 2000 "Chat" "one" (Some 1000) (Some 2000);
                CategoryChange "c1" (Some "Chat") "Game" "u1" 5000])) as Hr.
  { by eexists ∅, ∅, ∅, _. }
  split; [exact Hr|].
  destruct (stream_counts_posted_clips _ "c1"
              (Stream 1000 "Game" 5000
                 [Clip "a" "Chat" "one" (DateObj (Some 1000))
                    (DateObj (Some 2000)) 2000 false] None) Hr)
    as (Hinfo & _); [by vm_compute|].
  split; [exact Hinfo|]. by vm_compute.
Defined.

End Registry.

(** ** The coordinator *)

Lemma reachable_boot (videos : gmap string file) (media : gmap string Z)
    (temp : gmap string string) :
  reachable (boot videos media temp).
Proof. by exists videos, media, temp, []. Qed.

Lemma reachable_run (s : system) (es : list event) :
  reachable s -> reachable (run s es).
Proof.
  intros (videos & media & temp & es0 & ->).
  exists videos, media, temp, (es0 ++ es). by rewrite run_app.
Qed.

(** A state given as a run from another one that can be reached. *)
Ltac reach := first [apply reachable_boot | apply reachable_run; reach].

Section Coordinator.

Lemma durationPerClip_sixty (n : nat) :
  (1 <= n <= 5)%nat -> durationPerClip n * Z.of_nat n = 60.
Proof.
  intros Hn.
  destruct n as [|[|[|[|[|[|n]]]]]]; try lia; by vm_compute.
Qed.

(** X8. Every artifact the server ever reports has a duration of exactly
    60 seconds: for one to five clips the two floor divisions lose
    nothing. *)
Theorem artifact_duration_is_sixty
    (s : system) (i : nat) (id url : string) (size duration : Z) :
  reachable s ->
  tasks s !! i = Some (Settled (Generated id url size duration)) ->
  duration = 60.
Proof.
  intros Hs%coherent_reachable Hi.
  pose proof (proj1 (Forall_lookup _ _) (proj1 Hs) i _ Hi) as (n & Hn & ->).
  by apply durationPerClip_sixty.
Qed.

Lemma artifact_duration_is_sixty_witness :
  reachable servedOnce
  /\ tasks servedOnce !! 0%nat
     = Some (Settled (Generated "c1_0min_100000" "/videos/c1_0min_100000.mp4"
                        4096 60))
  /\ 60 = 60.
Proof.
  assert (reachable servedOnce) as Hr by reach.
  assert (tasks servedOnce !! 0%nat
          = Some (Settled (Generated "c1_0min_100000"
                             "/videos/c1_0min_100000.mp4" 4096 60))) as Ht
    by (by vm_compute).
  exact (conj Hr (conj Ht (artifact_duration_is_sixty _ _ _ _ _ _ Hr Ht))).
Defined.

Lemma listFile_inj (v v' : string) : listFile v = listFile v' -> v = v'.
Proof. apply string_app_inj_r. Qed.

(** X10. Two generations in flight at once never share a file: their list
    files in the temp directory differ, and so do their output paths. *)
Theorem concurrent_generations_use_distinct_files
    (s : system) (i j : nat) (ti tj : task) (vi vj : string) :
  reachable s ->
  i <> j ->
  tasks s !! i = Some ti -> generating ti = Some vi ->
  tasks s !! j = Some tj -> generating tj = Some vj ->
  listFile vi <> listFile vj /\ videoPath vi <> videoPath vj.
Proof.
  intros Hs%coherent_reachable Hne Hi Hgi Hj Hgj.
  assert (vi <> vj) as Hv.
  { intros ->. apply Hne. by eapply (proj2 Hs i j ti tj vj). }
  split; intros Heq; apply Hv.
  - by apply listFile_inj.
  - by apply videoPath_inj.
Qed.

Lemma concurrent_generations_use_distinct_files_witness :
  reachable (run (boot ∅ ∅ ∅) overlappingRequests)
  /\ 0%nat <> 1%nat
  /\ listFile "c1_1min_130000" <> listFile "c1_0min_130001"
  /\ videoPath "c1_1min_130000" <> videoPath "c1_0min_130001".
Proof.
  assert (reachable (run (boot ∅ ∅ ∅) overlappingRequests)) as Hr
    by reach.
  assert (0%nat <> 1%nat) as Hne by done.
  split; [exact Hr|]. split; [exact Hne|].
  apply (concurrent_generations_use_distinct_files _ 0 1
           (AwaitEncoder "c1_1min_130000" 60 [clipA] [entryOf 60 clipA])
           (AwaitEncoder "c1_0min_130001" 30 [clipB; clipA]
              [entryOf 30 clipB; entryOf 30 clipA])
           "c1_1min_130000" "c1_0min_130001" Hr Hne); by vm_compute.
Defined.

(** While the artifact of its key is missing, a tick is a no-op. *)
Lemma tick_while_absent (s : system) (k : nat) (vid : string) :
  tasks s !! k = Some (Polling vid) ->
  videosDir (store s) !! videoPath vid = None ->
  step s (Tick k) = s.
Proof.
  intros Hk Hv. simpl. rewrite (withTask_unfold _ _ _ _ Hk). simpl.
  unfold existsSync. rewrite Hv.
  rewrite (bool_decide_eq_false_2 (is_Some None)) by (by intros [? ?]).
  rewrite andb_false_r. rewrite list_insert_id by done. by destruct s.
Qed.

(** X11. The failure of a generation is never passed on to the requests
    that wait for it: when the encoder exits with a nonzero code and has
    written no file, a poller of that key is still polling after any
    number of ticks. *)
Theorem failed_generation_strands_waiters
    (s : system) (i k : nat) (vid : string) (d : Z) (rel : list clip)
    (lc : list listEntry) (code : Z) :
  reachable s ->
  tasks s !! i = Some (AwaitEncoder vid d rel lc) ->
  tasks s !! k = Some (Polling vid) ->
  code <> 0 ->
  tasks (step s (EncoderClose i code None)) !! i
  = Some (Settled (Error "Failed to generate video"))
  /\ forall n,
       tasks (run (step s (EncoderClose i code None)) (replicate n (Tick k)))
         !! k
       = Some (Polling vid).
Proof.
  intros Hs%coherent_reachable Hi Hk Hcode.
  pose proof (proj1 (Forall_lookup _ _) (proj1 Hs) i _ Hi)
    as ((_ & Hv & _) & _ & _).
  assert (i <> k) as Hne by (intros ->; congruence).
  set (s1 := step s (EncoderClose i code None)).
  assert (tasks s1 !! i = Some (Settled (Error "Failed to generate video"))
          /\ tasks s1 !! k = Some (Polling vid)
          /\ videosDir (store s1) !! videoPath vid = None) as (H1 & H2 & H3).
  { subst s1. simpl. rewrite (withTask_unfold _ _ _ _ Hi). simpl.
    rewrite bool_decide_eq_false_2 by done. simpl.
    split; [by eapply lookup_insert_self|].
    split; [by rewrite list_lookup_insert_ne|done]. }
  split; [exact H1|]. intros n.
  assert (run s1 (replicate n (Tick k)) = s1) as ->; [|done].
  induction n as [|n IH]; [done|].
  simpl. unfold run in *. simpl. fold (step s1 (Tick k)).
  by rewrite (tick_while_absent s1 k vid).
Qed.

Lemma failed_generation_strands_waiters_witness :
  reachable (run encoding [Request "c1" 0 100000 100200])
  /\ tasks (run encoding [Request "c1" 0 100000 100200]) !! 1%nat
     = Some (Polling "c1_0min_100000")
  /\ 1 <> 0
  /\ tasks (run (step (run encoding [Request "c1" 0 100000 100200])
                      (EncoderClose 0 1 None))
                (replicate 60 (Tick 1))) !! 1%nat
     = Some (Polling "c1_0min_100000").
Proof.
  assert (reachable (run encoding [Request "c1" 0 100000 100200])) as Hr
    by reach.
  assert (tasks (run encoding [Request "c1" 0 100000 100200]) !! 1%nat
          = Some (Polling "c1_0min_100000")) as Hk by (by vm_compute).
  assert (1 <> 0) as Hc by lia.
  destruct (failed_generation_strands_waiters _ 0 1 "c1_0min_100000" 30
              [clipB; clipA] [entryOf 30 clipB; entryOf 30 clipA] 1 Hr
              ltac:(by vm_compute) Hk Hc) as [_ Hn].
  exact (conj Hr (conj Hk (conj Hc (Hn 60%nat)))).
Defined.

Lemma generateRecapVideo_markers (channelId : string)
    (minutesLate now0 now1 : Z) (w : world) (x : string) :
  x ∈ generatingVideos (generateRecapVideo channelId minutesLate now0 now1 w).1 ->
  x ∈ generatingVideos w \/ x = videoId channelId minutesLate now0.
Proof.
  unfold generateRecapVideo.
  assert (forall k, x ∈ ({[videoId channelId minutesLate now0]}
                          ∪ generatingVideos w) ∖ {[k]} ->
            x ∈ generatingVideos w \/ x = videoId channelId minutesLate now0)
    as Hrem.
  { intros k [[->%elem_of_singleton|?]%elem_of_union _]%elem_of_difference;
      [by right|by left]. }
  destruct (existsSync _ _); [by left|].
  destruct (bool_decide (_ ∈ _)); [by left|]. simpl.
  destruct (bool_decide (length _ = 0%nat)); [apply Hrem|].
  destruct (selectClips _ _ _) as [rel|]; [|apply Hrem].
  destruct (bool_decide (length rel = 0%nat)); [apply Hrem|].
  destruct (clipLoop_spec (videoId channelId minutesLate now0)
              (durationPerClip (length rel)) rel rel []
              (set_generating
                 ({[videoId channelId minutesLate now0]}
                    ∪ generatingVideos w) w)) as (_ & _ & -> & _).
  simpl. intros [->%elem_of_singleton|?]%elem_of_union; [by right|by left].
Qed.

(** No event but a request adds a marker. *)
Lemma step_markers (s : system) (e : event) (x : string) :
  x ∈ generatingVideos (store (step s e)) ->
  x ∈ generatingVideos (store s)
  \/ exists channelId minutesLate now0 now1,
       e = Request channelId minutesLate now0 now1
       /\ x = videoId channelId minutesLate now0.
Proof.
  destruct e; simpl.
  - pose proof (generateRecapVideo_markers channelId minutesLate now0 now1
                  (store s) x) as H.
    destruct (generateRecapVideo _ _ _ _ _). simpl in *.
    intros [?| ->]%H; [by left|]. right. by eexists _, _, _, _.
  - destruct (tasks s !! i) as [t|] eqn:Hi; [|rewrite withTask_none; auto].
    rewrite (withTask_unfold _ _ _ _ Hi).
    destruct t as [|vid d rel c rest lc| | |]; auto. simpl.
    destruct (clipLoop_spec vid d rel rest
                (lc ++ [ListEntry (clipVideoPath c) d])
                (set_clipsDir (<[clipVideoPath c := d]> (clipsDir (store s)))
                   (store s))) as (_ & _ & -> & _). auto.
  - destruct (tasks s !! i) as [t|] eqn:Hi; [|rewrite withTask_none; auto].
    rewrite (withTask_unfold _ _ _ _ Hi).
    destruct t as [| |vid d rel lc| |]; auto. simpl.
    assert (x ∈ generatingVideos (store s) ∖ {[vid]} ->
            x ∈ generatingVideos (store s)) as Hrem
      by (by intros [? _]%elem_of_difference).
    destruct (bool_decide (code = 0)).
    + destruct out; simpl; destruct (_ !! videoPath vid); simpl; auto.
    + destruct out; simpl; auto.
  - destruct (tasks s !! i) as [t|] eqn:Hi; [|rewrite withTask_none; auto].
    rewrite (withTask_unfold _ _ _ _ Hi). auto.
  - auto.
  - auto.
  - unfold categoryChange. destruct (streams (store s) !! channelId); auto.
  - auto.
Qed.

Lemma markers_are_keys_reachable (s : system) :
  reachable s -> markers_are_keys (store s).
Proof.
  intros (videos & media & temp & es & ->).
  induction es as [|e es IH] using rev_ind.
  - intros vid Hin. by apply not_elem_of_empty in Hin.
  - rewrite run_app. intros vid Hin.
    change (run (run (boot videos media temp) es) [e])
      with (step (run (boot videos media temp) es) e) in Hin.
    apply step_markers in Hin as [Hin|(c & m & n0 & n1 & _ & ->)].
    + by apply IH.
    + by eexists _, _, _.
Qed.

(** X12. In every state the server reaches, the key that the [catch]
    clause deletes (the one without the instant) is not in the map of
    markers: the [delete] of line 352 never removes anything. *)
Theorem catch_delete_removes_nothing
    (s : system) (channelId : string) (minutesLate : Z) :
  reachable s ->
  (catchKey channelId minutesLate ∉ generatingVideos (store s))
  /\ generatingVideos (store s) ∖ {[catchKey channelId minutesLate]}
     = generatingVideos (store s).
Proof.
  intros Hr.
  assert (catchKey channelId minutesLate ∉ generatingVideos (store s)) as Hn.
  { intros Hin.
    destruct (markers_are_keys_reachable s Hr _ Hin) as (c & m & n & Heq).
    by eapply catchKey_not_videoId. }
  split; [exact Hn|].
  apply set_eq. intros x. rewrite elem_of_difference, elem_of_singleton.
  split; [by intros [? _]|]. intros Hx. split; [done|]. by intros ->.
Qed.

Lemma catch_delete_removes_nothing_witness :
  reachable firstRequest
  /\ generatingVideos (store firstRequest) ∖ {[catchKey "c1" 0]}
     = generatingVideos (store firstRequest).
Proof.
  assert (reachable firstRequest) as Hr by reach.
  exact (conj Hr (proj2 (catch_delete_removes_nothing firstRequest "c1" 0 Hr))).
Defined.

(** X13. The recap engine and the clip registry keep to themselves: no
    event of the engine (request, process exit, tick, sweep) changes the
    streams or the clips, and no event of the registry changes the tasks,
    the markers, the three directories or the processes spawned. *)
Theorem engine_and_registry_are_separate (s : system) (e : event) :
  (registryEvent e = false ->
   streams (store (step s e)) = streams (store s)
   /\ clips (store (step s e)) = clips (store s))
  /\ (registryEvent e = true ->
      tasks (step s e) = tasks s
      /\ generatingVideos (store (step s e)) = generatingVideos (store s)
      /\ videosDir (store (step s e)) = videosDir (store s)
      /\ clipsDir (store (step s e)) = clipsDir (store s)
      /\ tempDir (store (step s e)) = tempDir (store s)
      /\ spawned (store (step s e)) = spawned (store s)).
Proof.
  split; [apply engine_keeps_registry|].
  destruct e; try done; intros _; simpl; try done.
  unfold categoryChange. by destruct (streams (store s) !! channelId).
Qed.

Lemma generateRecapVideo_videosDir (channelId : string)
    (minutesLate now0 now1 : Z) (w : world) :
  videosDir (generateRecapVideo channelId minutesLate now0 now1 w).1
  = videosDir w.
Proof.
  unfold generateRecapVideo.
  destruct (existsSync _ _); [done|].
  destruct (bool_decide (_ ∈ _)); [done|]. simpl.
  destruct (bool_decide (length _ = 0%nat)); [done|].
  destruct (selectClips _ _ _) as [rel|]; [|done].
  destruct (bool_decide (length rel = 0%nat)); [done|].
  by destruct (clipLoop_spec (videoId channelId minutesLate now0)
                 (durationPerClip (length rel)) rel rel []
                 (set_generating
                    ({[videoId channelId minutesLate now0]}
                       ∪ generatingVideos w) w)) as (_ & _ & _ & -> & _).
Qed.

(** Only the sweep removes or replaces an artifact. *)
Lemma videos_persist_step (s : system) (e : event) (p : string) (f : file) :
  coherent s -> isCleanup e = false ->
  videosDir (store s) !! p = Some f ->
  videosDir (store (step s e)) !! p = Some f.
Proof.
  intros Hs He Hp. destruct e; try done; simpl.
  - pose proof (generateRecapVideo_videosDir channelId minutesLate now0 now1
                  (store s)) as H.
    destruct (generateRecapVideo _ _ _ _ _). simpl in *. by rewrite H.
  - destruct (tasks s !! i) as [t|] eqn:Hi; [|by rewrite withTask_none].
    rewrite (withTask_unfold _ _ _ _ Hi).
    destruct t as [|vid d rel c rest lc| | |]; try done. simpl.
    by destruct (clipLoop_spec vid d rel rest
                   (lc ++ [ListEntry (clipVideoPath c) d])
                   (set_clipsDir (<[clipVideoPath c := d]> (clipsDir (store s)))
                      (store s))) as (_ & _ & _ & -> & _).
  - destruct (tasks s !! i) as [t|] eqn:Hi; [|by rewrite withTask_none].
    rewrite (withTask_unfold _ _ _ _ Hi).
    destruct t as [| |vid d rel lc| |]; try done.
    pose proof (proj1 (Forall_lookup _ _) (proj1 Hs) i _ Hi)
      as ((_ & Hv & _) & _ & _).
    assert (p <> videoPath vid) as Hne by (intros ->; congruence).
    simpl. destruct out as [f'|]; simpl.
    + rewrite lookup_insert_eq.
      destruct (bool_decide (code = 0)); simpl; by rewrite lookup_insert_ne.
    + rewrite Hv. by destruct (bool_decide (code = 0)).
  - destruct (tasks s !! i) as [t|] eqn:Hi; [|by rewrite withTask_none].
    by rewrite (withTask_unfold _ _ _ _ Hi).
  - unfold categoryChange. by destruct (streams (store s) !! channelId).
Qed.

Lemma videos_persist_run (s : system) (es : list event) (p : string)
    (f : file) :
  coherent s -> Forall (fun e => isCleanup e = false) es ->
  videosDir (store s) !! p = Some f ->
  videosDir (store (run s es)) !! p = Some f.
Proof.
  revert s. induction es as [|e es IH]; intros s Hs Hes Hp; [done|].
  apply Forall_cons in Hes as [He Hes].
  apply IH; [by apply coherent_step|done|]. by apply videos_persist_step.
Qed.

(** X14. An artifact stays in the cache until a sweep: once its file is in
    the videos directory, then after any events other than sweeps a
    request with the same key is answered from the cache, with the id and
    url of that key, and changes nothing. *)
Theorem artifact_is_served_until_swept
    (s : system) (es : list event) (channelId : string)
    (minutesLate now0 now1 : Z) (f : file) :
  reachable s ->
  videosDir (store s) !! videoPath (videoId channelId minutesLate now0)
  = Some f ->
  Forall (fun e => isCleanup e = false) es ->
  step (run s es) (Request channelId minutesLate now0 now1)
  = System (store (run s es))
           (tasks (run s es)
              ++ [Settled (Cached (videoId channelId minutesLate now0)
                             (videoUrl (videoId channelId minutesLate now0)))]).
Proof.
  intros Hs%coherent_reachable Hf Hes.
  pose proof (videos_persist_run s es _ f Hs Hes Hf) as Hf'.
  simpl. unfold generateRecapVideo, existsSync. rewrite Hf'.
  by rewrite bool_decide_eq_true_2 by (by eexists).
Qed.

Lemma artifact_is_served_until_swept_witness :
  reachable servedOnce
  /\ videosDir (store servedOnce) !! videoPath (videoId "c1" 0 100000)
     = Some (File 4096 100500 false)
  /\ step (run servedOnce
              [PostClip "c1" "c" 0 "Game" "three" (Some 90000) (Some 95000);
               Request "c1" 0 100501 100501; Tick 1])
          (Request "c1" 0 100000 100900)
     = System (store (run servedOnce
                        [PostClip "c1" "c" 0 "Game" "three" (Some 90000)
                           (Some 95000);
                         Request "c1" 0 100501 100501; Tick 1]))
         (tasks (run servedOnce
                   [PostClip "c1" "c" 0 "Game" "three" (Some 90000) (Some 95000);
                    Request "c1" 0 100501 100501; Tick 1])
            ++ [Settled (Cached (videoId "c1" 0 100000)
                           (videoUrl (videoId "c1" 0 100000)))]).
Proof.
  assert (reachable servedOnce) as Hr by reach.
  assert (videosDir (store servedOnce) !! videoPath (videoId "c1" 0 100000)
          = Some (File 4096 100500 false)) as Hf by (by vm_compute).
  split; [exact Hr|]. split; [exact Hf|].
  apply (artifact_is_served_until_swept servedOnce _ "c1" 0 100000 100900 _
           Hr Hf).
  by repeat constructor.
Defined.

End Coordinator.

(** ** More on the selection and on the sweep *)

Section SelectionAndSweep.

(** X15. On clips that hold dates, the selection has as many clips as
    there are eligible ones, up to five, and it keeps the most recent: a
    clip that starts before the cutoff and is left out starts no later
    than any clip that is selected. *)
Theorem selection_keeps_the_most_recent
    (streamClips sel : list clip) (minutesLate now : Z) :
  Forall (fun c => exists o, startTime c = DateObj o) streamClips ->
  selectClips streamClips minutesLate now = Some sel ->
  length sel
  = Nat.min 5
      (length (List.filter (startsBefore (now - minutesLate * 60000))
                 streamClips))
  /\ forall c kept,
       c ∈ streamClips ->
       startsBefore (now - minutesLate * 60000) c = true ->
       c ∉ sel -> kept ∈ sel ->
       startMs c <= startMs kept.
Proof.
  intros Hdates. unfold selectClips.
  rewrite (filterClips_dates _ _ Hdates). fold (startsBefore (now - minutesLate * 60000)).
  set (eligible := List.filter _ streamClips). intros [= <-].
  split.
  - rewrite length_take. by rewrite (Permutation_length (sortClips_perm eligible)).
  - intros c kept Hc Hbefore Hout Hkept.
    assert (c ∈ sortClips eligible) as Hin.
    { rewrite sortClips_perm. subst eligible.
      apply list_elem_of_In, filter_In. split; [by apply list_elem_of_In|done]. }
    rewrite <- (take_drop 5 (sortClips eligible)) in Hin.
    apply elem_of_app in Hin as [Hin|Hin]; [done|].
    pose proof (sortClips_sorted eligible (filter_hasDate _ streamClips))
      as Hsorted.
    rewrite <- (take_drop 5 (sortClips eligible)) in Hsorted.
    by apply (StronglySorted_app_1_elem_of _ _ _ _ _ Hsorted Hkept Hin).
Qed.

Lemma selection_keeps_the_most_recent_witness :
  Forall (fun c => exists o, startTime c = DateObj o) [clipA; clipB; clipC]
  /\ selectClips [clipA; clipB; clipC] 0 100000 = Some [clipB; clipA]
  /\ length [clipB; clipA]
     = Nat.min 5
         (length (List.filter (startsBefore (100000 - 0 * 60000))
                    [clipA; clipB; clipC])).
Proof.
  assert (Forall (fun c => exists o, startTime c = DateObj o)
            [clipA; clipB; clipC]) as Hd.
  { repeat constructor; by eexists. }
  assert (selectClips [clipA; clipB; clipC] 0 100000 = Some [clipB; clipA])
    as Hsel by (by vm_compute).
  exact (conj Hd (conj Hsel
           (proj1 (selection_keeps_the_most_recent _ _ 0 100000 Hd Hsel)))).
Defined.

(** X16. A sweep over a directory in which nothing older than 24 hours is
    a subdirectory throws nothing and leaves exactly the entries that are
    at most 24 hours old, in whatever order the directory was listed. *)
Theorem sweep_result_ignores_listing_order
    (now : Z) (files files' : list string) (d : gmap string file) :
  isListing files d -> isListing files' d ->
  (forall f st, d !! f = Some st -> now - mtimeMs st > age24h ->
                isDirectory st = false) ->
  forEachFile now files d = (filter (young now) d, false)
  /\ forEachFile now files' d = forEachFile now files d.
Proof.
  assert (forall l, isListing l d ->
            (forall f st, d !! f = Some st -> now - mtimeMs st > age24h ->
                          isDirectory st = false) ->
            forEachFile now l d = (filter (young now) d, false)) as Hexact.
  { intros l [Hnd Hlist] Hfiles.
    destruct (forEachFile_exact now l d Hnd) as [Hflag Hdel]; [|done|].
    { intros f. apply Hlist. }
    destruct (forEachFile now l d) as [r threw] eqn:E. simpl in *. f_equal; [|done].
    apply map_eq. intros p. apply option_eq. intros st.
    rewrite map_lookup_filter_Some. unfold young. simpl. split.
    - intros Hr.
      assert (d !! p = Some st) as Hp.
      { apply (forEachFile_sub now l d). by rewrite E. }
      split; [done|].
      destruct (decide (now - mtimeMs st <= age24h)) as [|Hold]; [done|].
      rewrite (Hdel p st) in Hr; [done| |done|lia].
      apply Hlist. by eexists.
    - intros [Hp Hy].
      pose proof (forEachFile_young now l d p st Hp Hy) as H.
      by rewrite E in H. }
  intros Hl Hl' Hfiles. split; [by apply Hexact|].
  by rewrite !Hexact.
Qed.

Lemma sweep_result_ignores_listing_order_witness :
  isListing ["c1_0min_100000.mp4"; "c1_0min_86400000.mp4"]
    (delete "old" staleVideos)
  /\ isListing ["c1_0min_86400000.mp4"; "c1_0min_100000.mp4"]
       (delete "old" staleVideos)
  /\ forEachFile 90000000 ["c1_0min_86400000.mp4"; "c1_0min_100000.mp4"]
       (delete "old" staleVideos)
     = forEachFile 90000000 ["c1_0min_100000.mp4"; "c1_0min_86400000.mp4"]
         (delete "old" staleVideos).
Proof.
  assert (forall l,
            l ≡ₚ ["c1_0min_100000.mp4"; "c1_0min_86400000.mp4"] ->
            isListing l (delete "old" staleVideos)) as Hlisting.
  { intros l Hl. split.
    - rewrite Hl. apply (bool_decide_unpack _). by vm_compute.
    - intros f. rewrite Hl, <- elem_of_dom.
      replace (dom (delete "old" staleVideos))
        with (list_to_set (C := gset string)
                ["c1_0min_100000.mp4"; "c1_0min_86400000.mp4"]).
      + by rewrite elem_of_list_to_set.
      + apply (bool_decide_unpack _). by vm_compute. }
  assert (isListing ["c1_0min_100000.mp4"; "c1_0min_86400000.mp4"]
            (delete "old" staleVideos)) as H1 by (by apply Hlisting).
  assert (isListing ["c1_0min_86400000.mp4"; "c1_0min_100000.mp4"]
            (delete "old" staleVideos)) as H2
    by (apply Hlisting, perm_swap).
  split; [exact H1|]. split; [exact H2|].
  apply (sweep_result_ignores_listing_order 90000000 _ _ _ H1 H2).
  intros f st Hf Hold.
  apply lookup_delete_Some in Hf as [Hne Hf].
  unfold staleVideos in Hf.
  apply lookup_insert_Some in Hf as [[Heq _]|[_ Hf]]; [done|].
  apply lookup_insert_Some in Hf as [[_ <-]|[_ Hf]]; [done|].
  apply lookup_singleton_Some in Hf as [_ <-]. done.
Defined.

End SelectionAndSweep.

(** ** Markers and list files *)

Section Markers.

(** The ways a request can go. *)
Lemma generateRecapVideo_cases (channelId : string)
    (minutesLate now0 now1 : Z) (w : world) :
  (generating (generateRecapVideo channelId minutesLate now0 now1 w).2 = None
   /\ tempDir (generateRecapVideo channelId minutesLate now0 now1 w).1
      = tempDir w
   /\ forall x,
        x ∈ generatingVideos
              (generateRecapVideo channelId minutesLate now0 now1 w).1 ->
        x ∈ generatingVideos w)
  \/ (selectClips (default [] (clips w !! channelId)) minutesLate now1 = None
      /\ generating (generateRecapVideo channelId minutesLate now0 now1 w).2
         = None
      /\ tempDir (generateRecapVideo channelId minutesLate now0 now1 w).1
         = tempDir w)
  \/ (exists d rel,
        (videoId channelId minutesLate now0 ∉ generatingVideos w)
        /\ generateRecapVideo channelId minutesLate now0 now1 w
           = clipLoop (videoId channelId minutesLate now0) d rel rel []
               (set_generating
                  ({[videoId channelId minutesLate now0]}
                     ∪ generatingVideos w) w)).
Proof.
  unfold generateRecapVideo.
  destruct (existsSync _ _); [by left|].
  destruct (bool_decide (_ ∈ _)) eqn:Eg; [by left|].
  apply bool_decide_eq_false in Eg. simpl.
  assert (forall x,
            x ∈ ({[videoId channelId minutesLate now0]} ∪ generatingVideos w)
                  ∖ {[videoId channelId minutesLate now0]} ->
            x ∈ generatingVideos w) as Hrem.
  { intros x [[?%elem_of_singleton|?]%elem_of_union Hx]%elem_of_difference;
      [|done]. exfalso. apply Hx. by apply elem_of_singleton. }
  destruct (bool_decide (length _ = 0%nat)); [by left|].
  destruct (selectClips _ _ _) as [rel|]; [|by right; left].
  destruct (bool_decide (length rel = 0%nat)); [by left|].
  right. right. by eexists _, _.
Qed.

Lemma clipLoop_temp (vid : string) (d : Z) (rel rest : list clip)
    (lc : list listEntry) (w : world) :
  (exists c rest' lc',
     (clipLoop vid d rel rest lc w).2 = AwaitClip vid d rel c rest' lc'
     /\ tempDir (clipLoop vid d rel rest lc w).1 = tempDir w)
  \/ (exists lc',
        (clipLoop vid d rel rest lc w).2 = AwaitEncoder vid d rel lc'
        /\ tempDir (clipLoop vid d rel rest lc w).1
           = <[listFile vid := renderList lc']> (tempDir w)).
Proof.
  revert lc. induction rest as [|c rest IH]; intros lc; simpl.
  - right. by exists lc.
  - destruct (existsSync (clipsDir w) (clipVideoPath c)); [apply IH|].
    left. by exists c, rest, lc.
Qed.

Lemma clipLoop_generating (vid : string) (d : Z) (rel rest : list clip)
    (lc : list listEntry) (w : world) :
  generating (clipLoop vid d rel rest lc w).2 = Some vid.
Proof.
  by destruct (clipLoop_temp vid d rel rest lc w)
    as [(c & r & l & -> & _)|(l & -> & _)].
Qed.

Lemma markers_running_withTask (s : system) (i : nat) (t t' : task)
    (w' : world) :
  tasks s !! i = Some t -> markers_are_running s ->
  (forall x, x ∈ generatingVideos w' -> x ∈ generatingVideos (store s)) ->
  (forall x, generating t = Some x -> x ∈ generatingVideos w' ->
             generating t' = Some x) ->
  markers_are_running (System w' (<[i := t']> (tasks s))).
Proof.
  intros Hi Hrun Hsub Hkeep x Hx. simpl in *.
  destruct (Hrun x (Hsub x Hx)) as (j & tj & Hj & Hg).
  destruct (decide (i = j)) as [->|Hne].
  - exists j, t'. split; [by eapply lookup_insert_self|].
    apply Hkeep; [congruence|done].
  - exists j, tj. split; [by rewrite list_lookup_insert_ne|done].
Qed.

Lemma dates_select (w : world) (channelId : string) (minutesLate now : Z) :
  clips_have_dates w ->
  selectClips (default [] (clips w !! channelId)) minutesLate now <> None.
Proof.
  intros Hd. unfold selectClips. rewrite filterClips_dates; [done|].
  destruct (clips w !! channelId) as [l|] eqn:El; [by eapply Hd|constructor].
Qed.

Lemma markers_running_step (s : system) (e : event) :
  clips_have_dates (store s) -> markers_are_running s ->
  markers_are_running (step s e).
Proof.
  intros Hd Hrun. destruct e; simpl.
  - (* a request *)
    destruct (generateRecapVideo_cases channelId minutesLate now0 now1 (store s))
      as [(Hidle & _ & Hsub)|[(Hnone & _)|(d & rel & Hfresh & Hr)]].
    + destruct (generateRecapVideo _ _ _ _ _) as [w' t]. simpl in *.
      intros x Hx. destruct (Hrun x (Hsub x Hx)) as (j & tj & Hj & Hg).
      exists j, tj. split; [by apply lookup_app_l_Some|done].
    + by apply dates_select in Hnone.
    + rewrite Hr.
      destruct (clipLoop_spec (videoId channelId minutesLate now0) d rel rel []
                  (set_generating
                     ({[videoId channelId minutesLate now0]}
                        ∪ generatingVideos (store s)) (store s)))
        as (_ & _ & Hgen & _).
      pose proof (clipLoop_generating (videoId channelId minutesLate now0) d
                    rel rel []
                    (set_generating
                       ({[videoId channelId minutesLate now0]}
                          ∪ generatingVideos (store s)) (store s))) as Hg.
      destruct (clipLoop _ _ _ _ _ _) as [w' t]. simpl in *.
      intros x Hx. simpl in Hx. rewrite Hgen in Hx.
      apply elem_of_union in Hx as [->%elem_of_singleton|Hx].
      * exists (length (tasks s)), t. split; [|done]. simpl.
        by rewrite lookup_app_r, Nat.sub_diag by lia.
      * destruct (Hrun x Hx) as (j & tj & Hj & Hgj).
        exists j, tj. split; [by apply lookup_app_l_Some|done].
  - (* a placeholder is done *)
    destruct (tasks s !! i) as [t|] eqn:Hi; [|by rewrite withTask_none].
    rewrite (withTask_unfold _ _ _ _ Hi).
    destruct t as [|vid d rel c rest lc| | |];
      try (simpl; rewrite list_insert_id by done; by destruct s).
    eapply markers_running_withTask; eauto.
    + intros x. simpl.
      by destruct (clipLoop_spec vid d rel rest
                     (lc ++ [ListEntry (clipVideoPath c) d])
                     (set_clipsDir
                        (<[clipVideoPath c := d]> (clipsDir (store s)))
                        (store s))) as (_ & _ & -> & _).
    + intros x [= <-] _. apply clipLoop_generating.
  - (* the encoder is done *)
    destruct (tasks s !! i) as [t|] eqn:Hi; [|by rewrite withTask_none].
    rewrite (withTask_unfold _ _ _ _ Hi).
    destruct t as [| |vid d rel lc| |];
      try (simpl; rewrite list_insert_id by done; by destruct s).
    assert (forall x,
              x ∈ generatingVideos
                    (onEncoderClose code out (AwaitEncoder vid d rel lc)
                       (store s)).1 ->
              x ∈ generatingVideos (store s) /\ x <> vid) as Hsub.
    { intros x. simpl.
      assert (x ∈ generatingVideos (store s) ∖ {[vid]} ->
              x ∈ generatingVideos (store s) /\ x <> vid) as Hrem.
      { intros [? Hx]%elem_of_difference. split; [done|].
        intros ->. apply Hx. by apply elem_of_singleton. }
      destruct (bool_decide (code = 0)).
      - destruct out; simpl; destruct (_ !! videoPath vid); simpl; apply Hrem.
      - destruct out; simpl; apply Hrem. }
    eapply markers_running_withTask; eauto.
    + intros x Hx. by apply Hsub.
    + intros x [= <-] Hx. by apply Hsub in Hx as [_ ?].
  - (* a tick *)
    destruct (tasks s !! i) as [t|] eqn:Hi; [|by rewrite withTask_none].
    rewrite (withTask_unfold _ _ _ _ Hi). simpl.
    eapply markers_running_withTask; eauto.
    intros x Hg _. by destruct t.
  - done.
  - done.
  - unfold categoryChange. by destruct (streams (store s) !! channelId).
  - done.
Qed.

Lemma dates_step (s : system) (e : event) :
  isCategoryChange e = false ->
  clips_have_dates (store s) -> clips_have_dates (store (step s e)).
Proof.
  intros He Hd.
  destruct (registryEvent e) eqn:Hreg.
  2:{ destruct (engine_keeps_registry s e Hreg) as [_ Hc].
      unfold clips_have_dates. by rewrite Hc. }
  destruct e; try done; simpl.
  intros ch l. unfold postClip. simpl.
  destruct (decide (channelId = ch)) as [->|Hne].
  - rewrite lookup_insert_eq. intros [= <-]. apply Forall_app. split.
    + destruct (clips (store s) !! ch) as [l0|] eqn:El; [by eapply Hd|constructor].
    + repeat constructor. by eexists.
  - rewrite lookup_insert_ne by done. apply Hd.
Qed.

(** X17. On a server that the category-change webhook has not reached, the
    markers are exactly the keys of the generations in flight: a key is
    marked if and only if some task is generating its artifact, so no
    marker is ever left behind. *)
Theorem markers_track_generations
    (videos : gmap string file) (media : gmap string Z)
    (temp : gmap string string) (es : list event) (vid : string) :
  Forall (fun e => isCategoryChange e = false) es ->
  vid ∈ generatingVideos (store (run (boot videos media temp) es))
  <-> exists i t,
        tasks (run (boot videos media temp) es) !! i = Some t
        /\ generating t = Some vid.
Proof.
  intros Hes. split.
  - revert vid.
    change (markers_are_running (run (boot videos media temp) es)).
    enough (clips_have_dates (store (run (boot videos media temp) es))
            /\ markers_are_running (run (boot videos media temp) es)) as [_ H]
      by done.
    induction es as [|e es IH] using rev_ind.
    + split.
      * intros ch l Hl. simpl in Hl. by rewrite lookup_empty in Hl.
      * intros x Hx. by apply not_elem_of_empty in Hx.
    + apply Forall_app in Hes as [Hes He]. apply Forall_inv in He.
      destruct (IH Hes) as [Hd Hrun]. rewrite run_app.
      change (run (run (boot videos media temp) es) [e])
        with (step (run (boot videos media temp) es) e).
      split; [apply dates_step; [exact He|exact Hd]|].
      by apply markers_running_step.
  - intros (i & t & Hi & Hg).
    assert (coherent (run (boot videos media temp) es)) as [Hts _]
      by auto with recap.
    pose proof (proj1 (Forall_lookup _ _) Hts i t Hi) as Hok.
    by destruct (task_ok_key _ _ _ Hok Hg).
Qed.

Lemma markers_track_generations_witness :
  Forall (fun e => isCategoryChange e = false)
    [PostClip "c1" "a" 0 "Chat" "one" (Some 50000) (Some 55000);
     PostClip "c1" "b" 0 "Game" "two" (Some 80000) (Some 85000);
     Request "c1" 0 100000 100000; ClipClose 0; ClipClose 0]
  /\ exists i t,
       tasks (run (boot ∅ ∅ ∅)
                [PostClip "c1" "a" 0 "Chat" "one" (Some 50000) (Some 55000);
                 PostClip "c1" "b" 0 "Game" "two" (Some 80000) (Some 85000);
                 Request "c1" 0 100000 100000; ClipClose 0; ClipClose 0])
         !! i = Some t
       /\ generating t = Some "c1_0min_100000".
Proof.
  assert (Forall (fun e => isCategoryChange e = false)
            [PostClip "c1" "a" 0 "Chat" "one" (Some 50000) (Some 55000);
             PostClip "c1" "b" 0 "Game" "two" (Some 80000) (Some 85000);
             Request "c1" 0 100000 100000; ClipClose 0; ClipClose 0]) as Hes
    by (by repeat constructor).
  split; [exact Hes|].
  apply (proj1 (markers_track_generations ∅ ∅ ∅ _ "c1_0min_100000" Hes)).
  apply (bool_decide_unpack _). by vm_compute.
Defined.

Lemma temp_ok_step (s : system) (e : event) :
  coherent s -> temp_ok s -> temp_ok (step s e).
Proof.
  intros Hs Htemp.
  assert (forall j vid d rel lc,
            tasks s !! j = Some (AwaitEncoder vid d rel lc) ->
            vid ∈ generatingVideos (store s)) as Hmarked.
  { intros j vid d rel lc Hj.
    by pose proof (proj1 (Forall_lookup _ _) (proj1 Hs) j _ Hj)
      as ((? & _) & _). }
  destruct e; simpl.
  - (* a request *)
    destruct (generateRecapVideo_cases channelId minutesLate now0 now1 (store s))
      as [(Hidle & Ht & _)|[(_ & Hidle & Ht)|(d & rel & Hfresh & Hr)]].
    + destruct (generateRecapVideo _ _ _ _ _) as [w' t]. simpl in *.
      intros j vid d rel lc Hj. simpl in *. rewrite Ht.
      apply lookup_app_Some in Hj as [Hj|[_ Hj]]; [by eapply Htemp|].
      apply list_lookup_singleton_Some in Hj as [_ ->]. done.
    + destruct (generateRecapVideo _ _ _ _ _) as [w' t]. simpl in *.
      intros j vid d rel lc Hj. simpl in *. rewrite Ht.
      apply lookup_app_Some in Hj as [Hj|[_ Hj]]; [by eapply Htemp|].
      apply list_lookup_singleton_Some in Hj as [_ ->]. done.
    + rewrite Hr.
      set (w1 := set_generating _ (store s)).
      destruct (clipLoop_temp (videoId channelId minutesLate now0) d rel rel []
                  w1) as [(c & r & l & Ht & Htmp)|(l & Ht & Htmp)];
        destruct (clipLoop _ _ _ _ _ w1) as [w' t]; simpl in *; subst t;
        intros j vid d' rel' lc Hj; simpl in *; rewrite Htmp;
        apply lookup_app_Some in Hj as [Hj|[_ Hj]].
      * by eapply Htemp.
      * by apply list_lookup_singleton_Some in Hj as [_ ?].
      * rewrite lookup_insert_ne; [by eapply Htemp|].
        intros Heq%listFile_inj. subst vid.
        apply Hfresh. by eapply Hmarked.
      * apply list_lookup_singleton_Some in Hj as [_ [= <- <- <- <-]].
        apply lookup_insert_eq.
  - (* a placeholder is done *)
    destruct (tasks s !! i) as [t|] eqn:Hi; [|by rewrite withTask_none].
    rewrite (withTask_unfold _ _ _ _ Hi).
    destruct t as [|vid d rel c rest lc| | |];
      try (simpl; rewrite list_insert_id by done; by destruct s).
    simpl. set (w1 := set_clipsDir _ (store s)).
    destruct (clipLoop_temp vid d rel rest
                (lc ++ [ListEntry (clipVideoPath c) d]) w1)
      as [(c' & r & l & Ht & Htmp)|(l & Ht & Htmp)];
      intros j vid' d' rel' lc' Hj; simpl in Hj |- *;
      rewrite Ht in Hj; rewrite Htmp.
    + destruct (decide (i = j)) as [->|Hne].
      * by rewrite (lookup_insert_self _ _ _ _ Hi) in Hj.
      * rewrite list_lookup_insert_ne in Hj by done. by eapply Htemp.
    + destruct (decide (i = j)) as [->|Hne].
      * rewrite (lookup_insert_self _ _ _ _ Hi) in Hj.
        injection Hj as <- <- <- <-. apply lookup_insert_eq.
      * rewrite list_lookup_insert_ne in Hj by done.
        rewrite lookup_insert_ne; [by eapply Htemp|].
        intros Heq%listFile_inj. subst vid'. apply Hne.
        by eapply (proj2 Hs i j (AwaitClip vid d rel c rest lc)
                     (AwaitEncoder vid d' rel' lc') vid).
  - (* the encoder is done *)
    destruct (tasks s !! i) as [t|] eqn:Hi; [|by rewrite withTask_none].
    rewrite (withTask_unfold _ _ _ _ Hi).
    destruct t as [| |vid d rel lc| |];
      try (simpl; rewrite list_insert_id by done; by destruct s).
    assert (generating (onEncoderClose code out (AwaitEncoder vid d rel lc)
                          (store s)).2 = None
            /\ tempDir (onEncoderClose code out (AwaitEncoder vid d rel lc)
                          (store s)).1
               = delete (listFile vid) (tempDir (store s))) as [Hidle Htmp].
    { simpl. destruct (bool_decide (code = 0)).
      - destruct out; simpl; by destruct (_ !! videoPath vid).
      - by destruct out. }
    intros j vid' d' rel' lc' Hj.
    change (tempDir (onEncoderClose code out (AwaitEncoder vid d rel lc)
                       (store s)).1 !! listFile vid'
            = Some (renderList lc')).
    change (<[i := (onEncoderClose code out (AwaitEncoder vid d rel lc)
                      (store s)).2]> (tasks s) !! j
            = Some (AwaitEncoder vid' d' rel' lc')) in Hj.
    rewrite Htmp.
    destruct (decide (i = j)) as [->|Hne].
    + rewrite (lookup_insert_self _ _ _ _ Hi) in Hj.
      injection Hj as Hj.
      change ((onEncoderClose code out (AwaitEncoder vid d rel lc)
                 (store s)).2 = AwaitEncoder vid' d' rel' lc') in Hj.
      by rewrite Hj in Hidle.
    + rewrite list_lookup_insert_ne in Hj by done.
      rewrite lookup_delete_ne; [by eapply Htemp|].
      intros Heq%listFile_inj. subst vid'. apply Hne.
      by eapply (proj2 Hs i j (AwaitEncoder vid d rel lc)
                   (AwaitEncoder vid d' rel' lc') vid).
  - (* a tick *)
    destruct (tasks s !! i) as [t|] eqn:Hi; [|by rewrite withTask_none].
    rewrite (withTask_unfold _ _ _ _ Hi). simpl.
    intros j vid d rel lc Hj. simpl in *.
    destruct (decide (i = j)) as [->|Hne].
    + rewrite (lookup_insert_self _ _ _ _ Hi) in Hj. injection Hj as Hj.
      destruct t; simpl in Hj; try done; [by destruct (_ && _)|].
      injection Hj as -> -> -> ->. by eapply Htemp.
    + rewrite list_lookup_insert_ne in Hj by done. by eapply Htemp.
  - exact Htemp.
  - exact Htemp.
  - unfold categoryChange.
    destruct (streams (store s) !! channelId); exact Htemp.
  - exact Htemp.
Qed.

Lemma temp_ok_reachable (s : system) : reachable s -> temp_ok s.
Proof.
  intros (videos & media & temp & es & ->).
  induction es as [|e es IH] using rev_ind.
  - intros j vid d rel lc Hj. done.
  - rewrite run_app.
    change (run (run (boot videos media temp) es) [e])
      with (step (run (boot videos media temp) es) e).
    apply temp_ok_step; [auto with recap|exact IH].
Qed.



End Markers.

(** ** The end of a stream *)

Section Lifecycle.

(** X19. Ending a stream removes nothing: the route answers 404 exactly
    when the channel has no stream, and after it has succeeded the info of
    the stream is what it was, the webhook still cuts a clip from the start
    of the running segment, and a posted clip is still counted. *)
Theorem ended_stream_stays_registered
    (w : world) (ch : string) (now : Z) :
  (streamEnd ch now w = Status 404 "Stream not found"
   <-> streams w !! ch = None)
  /\ forall w',
       streamEnd ch now w = Ok w' ->
       exists st,
         streams w !! ch = Some st
         /\ streamInfo ch w' = streamInfo ch w
         /\ getClips ch w' = getClips ch w
         /\ (forall old new uuid t,
               getClips ch (categoryChange ch old new uuid t w')
               = getClips ch w
                   ++ [Clip uuid (orElse old "Stream") (orElse old "Segment")
                         (NumberMs (lastSegmentStart st)) (NumberMs t) t
                         false])
         /\ (forall uuid t cat title a b,
               streamInfo ch (postClip ch uuid t cat title a b w')
               = Ok (StreamInfoBody ch (stream_startTime st)
                       (currentCategory st)
                       (S (length (stream_clips st))))).
Proof.
  unfold streamEnd. destruct (streams w !! ch) as [st|] eqn:Hst.
  - split; [by split|]. intros w' [= <-]. exists st.
    split; [done|]. split.
    { unfold streamInfo. simpl. by rewrite lookup_insert_eq, Hst. }
    split; [done|]. split.
    + intros old new uuid t. unfold categoryChange, getClips, createClip.
      simpl. rewrite lookup_insert_eq. simpl.
      rewrite lookup_insert_eq. by destruct (clips w !! ch).
    + intros uuid t cat title a b. unfold postClip, streamInfo, createClip.
      simpl. rewrite lookup_insert_eq. simpl. rewrite lookup_insert_eq.
      simpl. by rewrite length_app, Nat.add_1_r.
  - split; [by split|]. by intros w' [=].
Qed.

End Lifecycle.
